(** * mtcute: the SQLite storage and the protocol core, checked against the specification

    The development embeds [packages/sqlite/index.ts] (class [SqliteStorage]
    and its helpers) as Rocq functions over an explicit database state, and
    the three protocol rules of the specification whose code lives in the
    core package (update counters, message identifiers and sequence numbers,
    Diffie-Hellman parameter checks).

    Conventions.
    - A JavaScript [number] that holds an identifier, a counter or a
      timestamp is an integer of [Z]; a [Buffer] is a list of bytes.
    - An SQLite table with an [integer primary key] is a [gmap] from the key
      to its row.
    - A method that mutates the storage object is a function from the old
      object to the new one; a method that also returns a value returns a
      pair.
    - Of [SqliteStorage], the members around the key-value table, the
      authorisation keys, the channel counters, the pending queue and the
      lookup by username are embedded in [Sqlite]; [updatePeers] and the
      lookups by id and by phone in [SqlitePeers].  These and the throttled
      saving of cached entities (which runs from a timer and is not
      embedded) only touch the [entities] table, the cache and [upsertEnt]
      entries of the queue; the properties of Part II hold for every state
      of the storage object, whatever these members left in it. *)

From Stdlib Require Import ZArith String Ascii List Sorted Lia.
From Stdlib Require Import DecimalString DecimalZ.
From Stdlib Require Strings.Byte.
From Equations Require Import Equations.
From stdpp Require Import gmap strings list fin_maps.

Local Open Scope Z_scope.

(* ===================================================================== *)
(** * Part I: definitions *)
(* ===================================================================== *)

(** ** Buffers *)

Module Buffer.

(** A Node.js [Buffer]: a sequence of octets. *)
Abbreviation t := (list Byte.byte).

#[global] Instance byte_eq_dec : EqDecision Byte.byte := Byte.byte_eq_dec.

Definition octet (b : Byte.byte) : Z := Z.of_N (Byte.to_N b).

(** Storing a number into a buffer keeps its low eight bits
    ([value & 255]). *)
Definition of_number (z : Z) : Byte.byte :=
  match Byte.of_N (Z.to_N (z mod 256)) with
  | Some b => b
  | None => Byte.x00
  end.

(** [Buffer.from(array)] *)
Definition from (arr : list Z) : t := map of_number arr.

(** [buf.toJSON().data] *)
Definition data (buf : t) : list Z := map octet buf.

(** [Buffer.alloc(0)] *)
Definition EMPTY_BUFFER : t := [].

End Buffer.

(** ** The [big-integer] operations used by the storage

    [tl.Long] is a [bigInt.BigInteger]; the storage calls [toArray(256)] and
    [bigInt.fromArray(digits, 256, isNegative)] of that package.  Both are
    written here for a radix of at least two, the only case the storage
    uses. *)

Module BigInteger.

(** The digit loop of [toBase], [n] being the source's [left]:
    [while (left.compareAbs(base) >= 0) { divmod; out.push(digit) }
     out.push(left)].  [left] is never negative here, the sign having been
    taken off before the loop. *)
Equations? toBase_loop (base n : Z) (out : list Z) : list Z
  by wf (Z.to_nat n) lt :=
  toBase_loop base n out with decide (2 <= base /\ base <= n) := {
    | left _ := toBase_loop base (Z.quot n base) (out ++ [Z.rem n base]);
    | right _ := out ++ [n] }.
Proof.
  assert (0 < n ÷ base < n); [|lia].
  split.
  - apply Z.quot_str_pos; lia.
  - apply Z.quot_lt; lia.
Qed.

Record BaseArray := { value : list Z; isNegative : bool }.

(** [n.toArray(radix)] *)
Definition toArray (n : Z) (radix : Z) : BaseArray :=
  let neg := (n <? 0) && (0 <? radix) in
  let n' := if neg then Z.abs n else n in
  {| value := rev (toBase_loop radix n' []); isNegative := neg |}.

(** [parseBaseFromArray]:
    [for (i = digits.length - 1; i >= 0; i--)
       { val = val.add(digits[i].times(pow)); pow = pow.times(base) }] *)
Definition parse_step (base : Z) (acc : Z * Z) (digit : Z) : Z * Z :=
  (fst acc + digit * snd acc, snd acc * base).

Definition parseBaseFromArray (digits : list Z) (base : Z) (isNeg : bool) : Z :=
  let val := fst (fold_left (parse_step base) (rev digits) (0, 1)) in
  if isNeg then - val else val.

(** [bigInt.fromArray(digits, base, isNegative)] *)
Definition fromArray (digits : list Z) (base : Z) (isNeg : bool) : Z :=
  parseBaseFromArray digits base isNeg.

End BigInteger.

(** ** JSON text of the [kv] table

    The [kv] table keeps [JSON.stringify(value)] and the storage reads it
    back with [JSON.parse].  The storage itself only looks at [null] and at
    numbers; every other document (the objects of [def_dc] and [self], the
    pair of [cpts]) is carried as its text. *)

Module JSON.

Inductive value :=
| Null
| Number (n : Z)
| Other (text : string).

Definition stringify_number (n : Z) : string :=
  NilZero.string_of_int (Z.to_int n).

Definition stringify (v : value) : string :=
  match v with
  | Null => "null"
  | Number n => stringify_number n
  | Other text => text
  end.

(** A text is read as a number when it is the decimal numeral that
    [stringify] writes for it. *)
Definition parse_number (s : string) : option Z :=
  match NilZero.int_of_string s with
  | Some d =>
      let n := Z.of_int d in
      if String.eqb (stringify_number n) s then Some n else None
  | None => None
  end.

Definition parse (s : string) : value :=
  if String.eqb s "null" then Null
  else match parse_number s with
       | Some n => Number n
       | None => Other s
       end.

(** [v === null] *)
Definition is_null (v : value) : bool :=
  match v with Null => true | _ => false end.

End JSON.

(** ** Values of the TL schema the storage builds *)

Module Tl.

(** [tl.Long] *)
Definition Long := Z.

(** The three [tl.TypeInputPeer] variants [getInputPeer] returns. *)
Inductive TypeInputPeer :=
| inputPeerUser (userId : Z) (accessHash : Long)
| inputPeerChat (chatId : Z)
| inputPeerChannel (channelId : Z) (accessHash : Long).

End Tl.

(** A call either returns or throws. *)
Inductive outcome (A : Type) :=
| Return (a : A)
| Throw (msg : string).
Arguments Return {A} a.
Arguments Throw {A} msg.

(** ** SQLite values

    Storage classes of SQLite, as far as the statements of the storage
    compare them. *)

Module Sql.

Inductive value :=
| Null
| Integer (n : Z)
| Text (s : string)
| Blob (b : Buffer.t).

(** [a <> b] without affinity conversion: [NULL] when an operand is
    [NULL]; values of different storage classes differ. *)
Definition ne (a b : value) : option bool :=
  match a, b with
  | Null, _ | _, Null => None
  | Integer x, Integer y => Some (negb (x =? y))
  | Text x, Text y => Some (negb (String.eqb x y))
  | Blob x, Blob y => Some (negb (bool_decide (x = y)))
  | _, _ => Some true
  end.

(** A [where] clause selects a row when it evaluates to true. *)
Definition holds (c : option bool) : bool :=
  match c with Some true => true | _ => false end.

End Sql.

(** ** [packages/sqlite/index.ts] *)

(** Rows of the [entities] table ([interface SqliteEntity]). *)
Module SqliteEntity.
Record t := {
  id : Z;
  hash : Buffer.t;
  type : string;
  username : option string;
  phone : option string;
  updated : Z;
  full : Buffer.t
}.
End SqliteEntity.

Module Sqlite.

Import Tl.

(** What the storage imports from the core package and only uses through
    its interface: the TL objects with their binary reader, the channel id
    base and the LRU map of the entity cache. *)
Class Core := {
  TlObject : Type;
  MAX_CHANNEL_ID : Z;
  (** [reader.object()] on a buffer; [None] when the reader throws *)
  BinaryReader_object : Buffer.t -> option TlObject;
  LruMap : Type -> Type;
  (** [map.set(key, value)] *)
  LruMap_set : forall {V : Type}, Z -> V -> LruMap V -> LruMap V
}.

(** [function serializeAccessHash(hash: tl.Long): Buffer] *)
Definition serializeAccessHash (hash : Long) : Buffer.t :=
  let arr := BigInteger.toArray hash 256 in
  let value := BigInteger.value arr ++ [if BigInteger.isNegative arr then 1 else 0] in
  Buffer.from value.

(** [arr.slice(0, -1)] *)
Definition slice_0_m1 {A} (arr : list A) : list A := removelast arr.

(** [arr[arr.length - 1]] used as a condition: a missing element or zero is
    false, any other number is true. *)
Definition last_truthy (arr : list Z) : bool :=
  match last arr with
  | Some x => negb (x =? 0)
  | None => false
  end.

(** [function parseAccessHash(hash: Buffer): tl.Long] *)
Definition parseAccessHash (hash : Buffer.t) : Long :=
  let arr := Buffer.data hash in
  BigInteger.fromArray (slice_0_m1 arr) 256 (last_truthy arr).

(** The [PeerInfo] of the storage interface, as far as [getInputPeer]
    reads it. *)
Module PeerInfo.
Record t := { id : Z; accessHash : Long; type : string }.
End PeerInfo.

Section GetInputPeer.
Context `{Core}.

(** [function getInputPeer(row: SqliteEntity | PeerInfo)] *)
Definition getInputPeer (row : SqliteEntity.t + PeerInfo.t) : outcome TypeInputPeer :=
  let type := match row with
              | inl r => SqliteEntity.type r
              | inr p => PeerInfo.type p
              end in
  let id := match row with
            | inl r => SqliteEntity.id r
            | inr p => PeerInfo.id p
            end in
  (* 'accessHash' in row ? row.accessHash : parseAccessHash(row.hash) *)
  let accessHash := match row with
                    | inr p => PeerInfo.accessHash p
                    | inl r => parseAccessHash (SqliteEntity.hash r)
                    end in
  if String.eqb type "user" then Return (inputPeerUser id accessHash)
  else if String.eqb type "chat" then Return (inputPeerChat (- id))
  else if String.eqb type "channel" then
    Return (inputPeerChannel (MAX_CHANNEL_ID - id) accessHash)
  else Throw ("Invalid peer type: " +:+ type).
End GetInputPeer.

Definition CURRENT_VERSION : Z := 1.

(** The four tables of [SCHEMA].  [auth_keys.key] is a [blob] column that
    the storage binds from a [Buffer] only. *)
Record Database := {
  kv : gmap string string;
  auth_keys : gmap Z Buffer.t;
  pts : gmap Z Z;
  entities : gmap Z SqliteEntity.t
}.

(** [SCHEMA]: the tables right after their creation. *)
Definition SCHEMA : Database :=
  {| kv := ∅; auth_keys := ∅; pts := ∅; entities := ∅ |}.

(** [RESET]:
    [delete from kv; delete from auth_keys where key <> 'ver';
     delete from pts; delete from entities] *)
Definition RESET (db : Database) : Database :=
  {| kv := ∅;
     auth_keys :=
       filter (fun row => Sql.holds (Sql.ne (Sql.Blob row.2) (Sql.Text "ver")) = false)
              (auth_keys db);
     pts := ∅;
     entities := ∅ |}.

Definition USERNAME_TTL : Z := 86400000.

(** The writing statements of [STATEMENTS] with their bound parameters, as
    they stand in [_pending]. *)
Inductive Write :=
| setKv (key value : string)
| delKv (key : string)
| setAuth (dc : Z) (key : Buffer.t)
| delAuth (dc : Z)
| setPts (channel_id pts : Z)
| upsertEnt (row : SqliteEntity.t).

(** [insert or replace] first removes the rows that would break a
    uniqueness constraint: here the row of the same [id] (overwritten by
    the insertion) and the rows that carry the same non-null [phone]. *)
Definition same_phone (row other : SqliteEntity.t) : Prop :=
  match SqliteEntity.phone row with
  | Some p => SqliteEntity.phone other = Some p
  | None => False
  end.

#[global] Instance same_phone_dec row other : Decision (same_phone row other).
Proof. unfold same_phone. destruct (SqliteEntity.phone row); apply _. Defined.

(** [stmt.run(params)] *)
Definition run (w : Write) (db : Database) : Database :=
  match w with
  | setKv key value =>
      {| kv := <[key := value]> (kv db); auth_keys := auth_keys db;
         pts := pts db; entities := entities db |}
  | delKv key =>
      {| kv := delete key (kv db); auth_keys := auth_keys db;
         pts := pts db; entities := entities db |}
  | setAuth dc key =>
      {| kv := kv db; auth_keys := <[dc := key]> (auth_keys db);
         pts := pts db; entities := entities db |}
  | delAuth dc =>
      {| kv := kv db; auth_keys := delete dc (auth_keys db);
         pts := pts db; entities := entities db |}
  | setPts channel_id p =>
      {| kv := kv db; auth_keys := auth_keys db;
         pts := <[channel_id := p]> (pts db); entities := entities db |}
  | upsertEnt row =>
      {| kv := kv db; auth_keys := auth_keys db; pts := pts db;
         entities :=
           <[SqliteEntity.id row := row]>
             (filter (fun other => ¬ same_phone row other.2) (entities db)) |}
  end.

(** [getKv]: [select value from kv where key = ?] *)
Definition getKv (key : string) (db : Database) : option string := kv db !! key.

(** [getAuth]: [select key from auth_keys where dc = ?] *)
Definition getAuth (dc : Z) (db : Database) : option Buffer.t := auth_keys db !! dc.

(** [getPts]: [select pts from pts where channel_id = ?] *)
Definition getPts (channel_id : Z) (db : Database) : option Z := pts db !! channel_id.

(** The first of several rows is the one with the least [id], the order
    in which the index on [username] lists equal names. *)
Fixpoint first_row (rows : list SqliteEntity.t) : option SqliteEntity.t :=
  match rows with
  | [] => None
  | r :: rows' =>
      match first_row rows' with
      | Some r' => if SqliteEntity.id r' <? SqliteEntity.id r then Some r' else Some r
      | None => Some r
      end
  end.

(** [getEntByUser]: [select * from entities where username = ?], read
    with [.get()] *)
Definition getEntByUser (username : string) (db : Database) : option SqliteEntity.t :=
  first_row
    (List.filter
       (fun r => bool_decide (SqliteEntity.username r = Some username))
       (map snd (map_to_list (entities db)))).

(** [this._runMany]: every statement of the list in order, in one
    transaction. *)
Definition _runMany (stmts : list Write) (db : Database) : Database :=
  fold_left (fun d w => run w d) stmts db.

(** [String.prototype.toLowerCase], on the letters A to Z. *)
Definition lower (c : ascii) : ascii :=
  let n := nat_of_ascii c in
  if ((65 <=? n) && (n <=? 90))%nat then ascii_of_nat (n + 32) else c.

Fixpoint toLowerCase (s : string) : string :=
  match s with
  | EmptyString => EmptyString
  | String c s' => String (lower c) (toLowerCase s')
  end.

(** [version < CURRENT_VERSION] on a value read from [kv]: [null] counts
    as zero; the storage writes nothing but a number under [ver]. *)
Definition lt_number (v : JSON.value) (n : Z) : bool :=
  match v with
  | JSON.Null => 0 <? n
  | JSON.Number m => m <? n
  | JSON.Other _ => false
  end.

Section Storage.
Context `{Core}.

(** [interface CacheItem] *)
Record CacheItem := { peer : TypeInputPeer; full : TlObject }.

(** The fields of [class SqliteStorage] that the methods below read or
    write. *)
Record SqliteStorage := {
  _db : Database;
  _pending : list Write;
  _cache : option (LruMap CacheItem)
}.

Definition with_db (db : Database) (st : SqliteStorage) : SqliteStorage :=
  {| _db := db; _pending := _pending st; _cache := _cache st |}.

(** [this._pending.push(w)] *)
Definition push (w : Write) (st : SqliteStorage) : SqliteStorage :=
  {| _db := _db st; _pending := _pending st ++ [w]; _cache := _cache st |}.

(** [_readFullPeer] *)
Definition _readFullPeer (data : Buffer.t) : option TlObject :=
  BinaryReader_object data.

(** [_addToCache] *)
Definition _addToCache (id : Z) (item : CacheItem) (st : SqliteStorage) : SqliteStorage :=
  match _cache st with
  | Some cache =>
      {| _db := _db st; _pending := _pending st;
         _cache := Some (LruMap_set id item cache) |}
  | None => st
  end.

(** [_getFromKv] *)
Definition _getFromKv (key : string) (st : SqliteStorage) : JSON.value :=
  match getKv key (_db st) with
  | Some value => JSON.parse value
  | None => JSON.Null
  end.

(** [_setToKv] *)
Definition _setToKv (key : string) (value : JSON.value) (now : bool)
           (st : SqliteStorage) : SqliteStorage :=
  let query := if JSON.is_null value then delKv key
               else setKv key (JSON.stringify value) in
  if now then with_db (run query (_db st)) st
  else push query st.

(** [_initialize], on the database the file holds: [None] when it has
    no tables yet. *)
Definition _initialize (file : option Database) (st : SqliteStorage) : SqliteStorage :=
  match file with
  | Some db =>
      let st := with_db db st in
      let version := _getFromKv "ver" st in
      if lt_number version CURRENT_VERSION
      then _setToKv "ver" (JSON.Number CURRENT_VERSION) true st
      else st
  | None =>
      _setToKv "ver" (JSON.Number CURRENT_VERSION) true (with_db SCHEMA st)
  end.

(** [load] *)
Definition load (file : option Database) (st : SqliteStorage) : SqliteStorage :=
  _initialize file st.

(** [save].  The last line arms the timer of the throttled saving of
    cached entities, which runs no statement during the call. *)
Definition save (st : SqliteStorage) : SqliteStorage :=
  match _pending st with
  | [] => st
  | _ :: _ =>
      {| _db := _runMany (_pending st) (_db st);
         _pending := [];
         _cache := _cache st |}
  end.

(** [reset] *)
Definition reset (st : SqliteStorage) : SqliteStorage :=
  with_db (RESET (_db st)) st.

Definition setDefaultDc (dc : JSON.value) (st : SqliteStorage) : SqliteStorage :=
  _setToKv "def_dc" dc false st.

Definition getDefaultDc (st : SqliteStorage) : JSON.value :=
  _getFromKv "def_dc" st.

(** [getAuthKeyFor]: [row ? row.key : null] *)
Definition getAuthKeyFor (dcId : Z) (st : SqliteStorage) : option Buffer.t :=
  getAuth dcId (_db st).

(** [setAuthKeyFor] *)
Definition setAuthKeyFor (dcId : Z) (key : option Buffer.t)
           (st : SqliteStorage) : SqliteStorage :=
  push (match key with
        | None => delAuth dcId
        | Some k => setAuth dcId k
        end) st.

Definition getSelf (st : SqliteStorage) : JSON.value := _getFromKv "self" st.

Definition setSelf (self : JSON.value) (st : SqliteStorage) : SqliteStorage :=
  _setToKv "self" self false st.

(** [getUpdatesState]: [pts == null] holds for [null] only, a missing
    row being read as [null] already. *)
Definition getUpdatesState (st : SqliteStorage)
  : option (JSON.value * JSON.value * JSON.value) :=
  let p := _getFromKv "pts" st in
  if JSON.is_null p then None
  else Some (p, _getFromKv "date" st, _getFromKv "seq" st).

Definition setCommonPts (val : JSON.value) (st : SqliteStorage) : SqliteStorage :=
  _setToKv "cpts" val false st.

Definition setUpdatesPts (val : Z) (st : SqliteStorage) : SqliteStorage :=
  _setToKv "pts" (JSON.Number val) false st.

Definition setUpdatesDate (val : Z) (st : SqliteStorage) : SqliteStorage :=
  _setToKv "date" (JSON.Number val) false st.

Definition setUpdatesSeq (val : Z) (st : SqliteStorage) : SqliteStorage :=
  _setToKv "seq" (JSON.Number val) false st.

(** [getChannelPts]: [row ? row.pts : null] *)
Definition getChannelPts (entityId : Z) (st : SqliteStorage) : option Z :=
  getPts entityId (_db st).

(** [setManyChannelPts]: one [setPts] per entry of the object.  (The key of
    an entry reaches the statement as the decimal text of the number, which
    the integer column turns back into the number.) *)
Definition setManyChannelPts (values : gmap Z Z) (st : SqliteStorage) : SqliteStorage :=
  fold_left (fun s entry => push (setPts entry.1 entry.2) s) (map_to_list values) st.

(** [getPeerByUsername], [now] being the value of [Date.now()]. *)
Definition getPeerByUsername (username : string) (now : Z) (st : SqliteStorage)
  : outcome (option TypeInputPeer) * SqliteStorage :=
  match getEntByUser (toLowerCase username) (_db st) with
  | None => (Return None, st)
  | Some row =>
      if now - SqliteEntity.updated row >? USERNAME_TTL then (Return None, st)
      else
        match getInputPeer (inl row) with
        | Throw msg => (Throw msg, st)
        | Return peer =>
            match _readFullPeer (SqliteEntity.full row) with
            | None => (Throw "BinaryReader", st)
            | Some full =>
                (Return (Some peer),
                 _addToCache (SqliteEntity.id row) {| peer := peer; full := full |} st)
            end
        end
  end.

(** *** Sequences of calls

    The calls that change the storage object, and the object after a
    sequence of them. *)
Inductive Call :=
| Save
| Reset
| SetDefaultDc (dc : JSON.value)
| SetAuthKeyFor (dcId : Z) (key : option Buffer.t)
| SetSelf (self : JSON.value)
| SetCommonPts (val : JSON.value)
| SetUpdatesPts (val : Z)
| SetUpdatesDate (val : Z)
| SetUpdatesSeq (val : Z)
| SetManyChannelPts (values : gmap Z Z)
| GetPeerByUsername (username : string) (now : Z).

Definition call (c : Call) (st : SqliteStorage) : SqliteStorage :=
  match c with
  | Save => save st
  | Reset => reset st
  | SetDefaultDc dc => setDefaultDc dc st
  | SetAuthKeyFor dcId key => setAuthKeyFor dcId key st
  | SetSelf self => setSelf self st
  | SetCommonPts val => setCommonPts val st
  | SetUpdatesPts val => setUpdatesPts val st
  | SetUpdatesDate val => setUpdatesDate val st
  | SetUpdatesSeq val => setUpdatesSeq val st
  | SetManyChannelPts values => setManyChannelPts values st
  | GetPeerByUsername username now => (getPeerByUsername username now st).2
  end.

Definition calls (cs : list Call) (st : SqliteStorage) : SqliteStorage :=
  fold_left (fun s c => call c s) cs st.

Definition is_Save (c : Call) : bool :=
  match c with Save => true | _ => false end.

Definition is_Reset (c : Call) : bool :=
  match c with Reset => true | _ => false end.

(** The value of the last [setUpdatesPts], [setUpdatesDate] and
    [setUpdatesSeq] of a sequence of calls. *)
Definition last_pts (cs : list Call) : option Z :=
  last (omap (fun c => match c with SetUpdatesPts v => Some v | _ => None end) cs).

Definition last_date (cs : list Call) : option Z :=
  last (omap (fun c => match c with SetUpdatesDate v => Some v | _ => None end) cs).

Definition last_seq (cs : list Call) : option Z :=
  last (omap (fun c => match c with SetUpdatesSeq v => Some v | _ => None end) cs).

(** A call that sets the counter of channel [cid]. *)
Definition sets_channel (cid : Z) (c : Call) : bool :=
  match c with
  | SetManyChannelPts values => bool_decide (is_Some (values !! cid))
  | _ => false
  end.

(** A statement that writes the row of [key] in [kv], or the row of
    [cid] in [pts]. *)
Definition writes_kv (key : string) (w : Write) : bool :=
  match w with
  | setKv k _ | delKv k => bool_decide (k = key)
  | _ => false
  end.

Definition writes_pts (cid : Z) (w : Write) : bool :=
  match w with
  | setPts c _ => bool_decide (c = cid)
  | _ => false
  end.

(** The storage never held a counter for channel [cid]: the table has
    no row for it and no pending statement writes one. *)
Definition channel_unset (cid : Z) (st : SqliteStorage) : Prop :=
  pts (_db st) !! cid = None /\
  Forall (fun w => writes_pts cid w = false) (_pending st).

(** The storage never held a value under [key] of [kv]. *)
Definition kv_unset (key : string) (st : SqliteStorage) : Prop :=
  kv (_db st) !! key = None /\
  Forall (fun w => writes_kv key w = false) (_pending st).

(** The database once the statements still pending are run. *)
Definition flushed (st : SqliteStorage) : Database :=
  _runMany (_pending st) (_db st).

(** What one call does to the row of [key] that the next [save] would
    leave in [kv]: [sel] picks the value of the setter in charge of
    [key]; every other call, [reset] apart, leaves the row alone. *)
Definition tracks (key : string) (sel : Call -> option Z) : Prop :=
  forall c (st : SqliteStorage), is_Reset c = false ->
    kv (flushed (call c st)) !! key =
    match sel c with
    | Some v => Some (JSON.stringify_number v)
    | None => kv (flushed st) !! key
    end.

(** The constructor, with the entity cache it creates (if any). *)
Definition new (cache : option (LruMap CacheItem)) : SqliteStorage :=
  {| _db := SCHEMA; _pending := []; _cache := cache |}.

End Storage.

End Sqlite.

(** A small instance of the core interface, to run the storage on
    examples: TL objects are their own serialisation and the cache is a
    list of entries, newest first. *)
Module Demo.

#[global] Instance core : Sqlite.Core := {|
  Sqlite.TlObject := Buffer.t;
  Sqlite.MAX_CHANNEL_ID := -1000000000000;
  Sqlite.BinaryReader_object := fun b => Some b;
  Sqlite.LruMap := fun V => list (Z * V);
  Sqlite.LruMap_set := fun V k v m => (k, v) :: m
|}.

(** A storage without cache, freshly loaded from an empty file. *)
Definition fresh : Sqlite.SqliteStorage := Sqlite.load None (Sqlite.new None).

Definition alice : SqliteEntity.t :=
  {| SqliteEntity.id := 42;
     SqliteEntity.hash := Sqlite.serializeAccessHash (-77);
     SqliteEntity.type := "user";
     SqliteEntity.username := Some "alice";
     SqliteEntity.phone := None;
     SqliteEntity.updated := 1000;
     SqliteEntity.full := [] |}.

(** [fresh] after the row of [alice] has been written. *)
Definition with_alice : Sqlite.SqliteStorage :=
  Sqlite.save (Sqlite.push (Sqlite.upsertEnt alice) fresh).

(** A row whose [type] column holds none of the three peer types (the
    column is plain [text]). *)
Definition eve : SqliteEntity.t :=
  {| SqliteEntity.id := 43;
     SqliteEntity.hash := Sqlite.serializeAccessHash 5;
     SqliteEntity.type := "bot";
     SqliteEntity.username := Some "eve";
     SqliteEntity.phone := None;
     SqliteEntity.updated := 1000;
     SqliteEntity.full := [] |}.

(** [fresh] after the row of [eve] has been written. *)
Definition with_eve : Sqlite.SqliteStorage :=
  Sqlite.save (Sqlite.push (Sqlite.upsertEnt eve) fresh).

(** The services of [core] with a reader that throws on the empty buffer,
    which holds no constructor number. *)
Definition strict : Sqlite.Core := {|
  Sqlite.TlObject := Buffer.t;
  Sqlite.MAX_CHANNEL_ID := -1000000000000;
  Sqlite.BinaryReader_object := fun b => match b with [] => None | _ => Some b end;
  Sqlite.LruMap := fun V => list (Z * V);
  Sqlite.LruMap_set := fun V k v m => (k, v) :: m
|}.

(** The storage with the row of [alice], whose serialised entity is the
    empty buffer, over the services of [strict]. *)
Definition strict_with_alice : @Sqlite.SqliteStorage strict :=
  @Sqlite.save strict
    (@Sqlite.push strict (Sqlite.upsertEnt alice)
       (@Sqlite.load strict None (@Sqlite.new strict None))).

End Demo.

(** ** The Update Manager (specification, sections 3 and 4.5)

    The update manager belongs to the core package, whose code is not among
    the sources at hand; its rule for an incoming batch is taken from the
    specification. *)

Module UpdateManager.

(** Modelled from the spec: the states of the per-stream state machine,
    [Normal -> GapDetected -> Recovering -> Normal] (the update manager of
    the core package is missing from the sources). *)
Inductive Phase := Normal | GapDetected | Recovering.

Section Stream.
(** The updates themselves are opaque to the rule. *)
Context {Update : Type}.

(** Modelled from the spec: a push batch, its counter [new_pts] and its
    updates; [delta] is the number of updates in the batch. *)
Record Batch := { new_pts : Z; updates : list Update }.

(** Modelled from the spec: [delta], the number of updates in the batch. *)
Definition delta (b : Batch) : Z := Z.of_nat (length (updates b)).

(** Modelled from the spec: one update stream.  [local_pts] is the
    counter the manager owns, [stored_pts] the value it last handed to
    the storage capability, [delivered] the updates passed to the update
    callback so far, [buffered] the batches held back during a gap. *)
Record Stream := {
  local_pts : Z;
  phase : Phase;
  stored_pts : Z;
  delivered : list Update;
  buffered : list Batch
}.

(** Modelled from the spec: the three ways the rule of section 4.5 treats a
    batch. *)
Inductive Verdict := Duplicate | Apply | Gap.

(** Modelled from the spec: the rule of section 4.5, its cases in the order
    of the text: [new_pts <= local_pts] duplicate, discard;
    [new_pts == local_pts + delta] apply; otherwise gap. *)
Definition classify (local new_pts d : Z) : Verdict :=
  if new_pts <=? local then Duplicate
  else if new_pts =? local + d then Apply
  else Gap.

(** Modelled from the spec: the step of a stream on a push batch.  In
    [Normal] the rule above decides: a duplicate leaves the stream as it
    is; an applied batch goes to the callback, and the new counter is
    kept and persisted; a gap moves the stream to [GapDetected], the
    batch being held back for the replay (section 8 has it applied once the
    gap is closed).  During a gap ([GapDetected], [Recovering]) incoming
    batches are buffered and not applied. *)
Definition on_batch (s : Stream) (b : Batch) : Stream :=
  match phase s with
  | Normal =>
      match classify (local_pts s) (new_pts b) (delta b) with
      | Duplicate => s
      | Apply =>
          {| local_pts := new_pts b;
             phase := Normal;
             stored_pts := new_pts b;
             delivered := delivered s ++ updates b;
             buffered := buffered s |}
      | Gap =>
          {| local_pts := local_pts s;
             phase := GapDetected;
             stored_pts := stored_pts s;
             delivered := delivered s;
             buffered := buffered s ++ [b] |}
      end
  | GapDetected | Recovering =>
      {| local_pts := local_pts s;
         phase := phase s;
         stored_pts := stored_pts s;
         delivered := delivered s;
         buffered := buffered s ++ [b] |}
  end.





End Stream.

Arguments Batch : clear implicits.
Arguments Stream : clear implicits.

End UpdateManager.

(** ** The Session: message identifiers and sequence numbers
    (specification, sections 3 and 4.4) *)

Module Session.

(** Modelled from the spec: the two classes of outgoing messages, content
    messages and service messages such as acknowledgements (the session of
    the core package is missing from the sources). *)
Inductive Kind := Content | Service.

(** Modelled from the spec: the part of a session that assigns
    identifiers, namely the last identifier given out and the sequence
    counter.  The specification says nothing about the exhaustion of the
    64-bit and 32-bit ranges, so both are plain integers. *)
Record Session := { last_msg_id : Z; seq : Z }.

(** Modelled from the spec: the header of an outgoing message. *)
Record Message := { msg_id : Z; seqno : Z; kind : Kind }.

(** Modelled from the spec: a session right after the transport
    connected. *)
Definition fresh : Session := {| last_msg_id := 0; seq := 0 |}.

(** Modelled from the spec: the message-id generator.  [clock] is the
    identifier derived from the wall clock at the time of the send; when it
    is not beyond the last identifier (time has not advanced, or went
    back) the last identifier is incremented instead. *)
Definition next_msg_id (clock : Z) (s : Session) : Z :=
  if last_msg_id s <? clock then clock else last_msg_id s + 1.

(** Modelled from the spec: a content message takes the next odd value
    and moves the counter by two; a service message takes the current even
    value and leaves the counter alone. *)
Definition next_seqno (k : Kind) (s : Session) : Z * Z :=
  match k with
  | Content => (seq s + 1, seq s + 2)
  | Service => (seq s, seq s)
  end.

(** Modelled from the spec: the assignment done by [send]. *)
Definition send (k : Kind) (clock : Z) (s : Session) : Message * Session :=
  let id := next_msg_id clock s in
  let sq := next_seqno k s in
  ({| msg_id := id; seqno := sq.1; kind := k |},
   {| last_msg_id := id; seq := sq.2 |}).

(** A sequence of sends, each with its kind and its clock reading: the
    messages in the order of the sends, and the session afterwards. *)
Fixpoint sends (l : list (Kind * Z)) (s : Session) : list Message * Session :=
  match l with
  | [] => ([], s)
  | (k, clock) :: l' =>
      let r := send k clock s in
      let r' := sends l' r.2 in
      (r.1 :: r'.1, r'.2)
  end.

End Session.

(** ** The Crypto Engine: [computeSharedSecret] (specification, section 4.1) *)

Module Crypto.

(** Modelled from the spec: the error of the crypto engine that
    [computeSharedSecret] raises (the crypto engine of the core package is
    missing from the sources). *)
Inductive CryptoError := InvalidDhParameters.

(** Modelled from the spec: the result of [computeSharedSecret], the shared
    secret or an error. *)
Inductive result := Ok (secret : Z) | Err (e : CryptoError).

(** Modelled from the spec: the primality check, done by trial division. *)
Definition is_prime (p : Z) : bool :=
  (1 <? p) &&
  forallb (fun d => negb (p mod d =? 0)) (map Z.of_nat (seq 2 (Z.to_nat p - 2))).

(** Modelled from the spec: a safe prime is a prime [p] with [(p - 1) / 2]
    prime as well. *)
Definition is_safe_prime (p : Z) : bool :=
  is_prime p && is_prime ((p - 1) / 2).

(** Modelled from the spec: the bit length of a positive number. *)
Definition bit_length (p : Z) : Z := Z.log2 p + 1.

(** Modelled from the spec: [computeSharedSecret(g, prime, ourExponent,
    theirPower)] checks that [prime] is a safe prime of the expected bit
    length and that [1 < theirPower < prime - 1], rejects with
    [InvalidDhParameters] otherwise, and else returns the shared secret
    of the exchange, [theirPower ^ ourExponent mod prime].  [bits] is the
    expected bit length; the generator [g] plays no part in these checks. *)
Definition computeSharedSecret (bits : Z) (g prime ourExponent theirPower : Z) : result :=
  if is_safe_prime prime && (bit_length prime =? bits)
     && (1 <? theirPower) && (theirPower <? prime - 1)
  then Ok (theirPower ^ ourExponent mod prime)
  else Err InvalidDhParameters.

(** The conditions of the specification, as propositions. *)
Definition safe_prime (p : Z) : Prop := Z.prime p /\ Z.prime ((p - 1) / 2).

Definition valid_parameters (bits prime theirPower : Z) : Prop :=
  safe_prime prime /\ bit_length prime = bits /\ 1 < theirPower < prime - 1.

End Crypto.

(** ** [packages/sqlite/index.ts]: the peers

    [updatePeers] and the lookups by id and by phone.  They read the entity
    cache and serialise TL objects, two more services of the core package;
    the saving of the updates of cached entities runs from a timer and is
    not part of these calls. *)

Module SqlitePeers.

Import Tl Sqlite.

(** What the peer methods use of the core package besides [Core]. *)
Class CoreCache `{Core} := {
  (** [map.get(key)]: the value under the key, and the map after the read
      (a read marks the entry as used) *)
  LruMap_get : forall {V : Type}, Z -> LruMap V -> option V * LruMap V;
  (** an assignment to a field of the item the map holds under the key: the
      item is replaced where it is *)
  LruMap_replace : forall {V : Type}, Z -> V -> LruMap V -> LruMap V;
  (** [BinaryWriter.serializeObject] *)
  BinaryWriter_serializeObject : TlObject -> Buffer.t
}.

(** [getEntById]: [select * from entities where id = ?] *)
Definition getEntById (id : Z) (db : Database) : option SqliteEntity.t :=
  entities db !! id.

(** [getEntByPhone]: [select * from entities where phone = ?], read with
    [.get()] *)
Definition getEntByPhone (phone : string) (db : Database) : option SqliteEntity.t :=
  first_row
    (List.filter
       (fun r => bool_decide (SqliteEntity.phone r = Some phone))
       (map snd (map_to_list (entities db)))).

(** No two rows carry the same phone (the unique index of [SCHEMA]). *)
Definition unique_phones (db : Database) : Prop :=
  forall k k' r r' ph,
    entities db !! k = Some r -> entities db !! k' = Some r' ->
    SqliteEntity.phone r = Some ph -> SqliteEntity.phone r' = Some ph ->
    k = k'.

Section Peers.
Context `{CoreCache}.

(** The [ITelegramStorage.PeerInfo] given to [updatePeers]. *)
Record Peer := {
  info : PeerInfo.t;
  username : option string;
  phone : option string;
  full : TlObject
}.

(** The parameters of one [updateCachedEnt] kept in
    [_pendingUnimportant]. *)
Record Unimportant := {
  u_username : option string;
  u_phone : option string;
  u_updated : Z;
  u_full : Buffer.t;
  u_id : Z
}.

(** The storage object with the field the peer methods add to those of
    [SqliteStorage]. *)
Record Storage := {
  base : SqliteStorage;
  _pendingUnimportant : gmap Z Unimportant
}.

(** [this._cache?.get(id)] *)
Definition cache_get (id : Z) (st : SqliteStorage) : option CacheItem * SqliteStorage :=
  match _cache st with
  | Some cache =>
      let r := LruMap_get id cache in
      (r.1, {| _db := _db st; _pending := _pending st; _cache := Some r.2 |})
  | None => (None, st)
  end.

(** The rest of the three lookups once a row is at hand: build the peer,
    decode the entity, put both in the cache under [id]. *)
Definition cache_row (id : Z) (row : SqliteEntity.t) (st : SqliteStorage)
  : outcome (TypeInputPeer * SqliteStorage) :=
  match getInputPeer (inl row) with
  | Throw msg => Throw msg
  | Return p =>
      match _readFullPeer (SqliteEntity.full row) with
      | None => Throw "BinaryReader"
      | Some f => Return (p, _addToCache id {| Sqlite.peer := p; Sqlite.full := f |} st)
      end
  end.

(** [getPeerById] *)
Definition getPeerById (peerId : Z) (st : SqliteStorage)
  : outcome (option TypeInputPeer) * SqliteStorage :=
  let c := cache_get peerId st in
  match c.1 with
  | Some cached => (Return (Some (Sqlite.peer cached)), c.2)
  | None =>
      match getEntById peerId (_db c.2) with
      | Some row =>
          match cache_row peerId row c.2 with
          | Return r => (Return (Some r.1), r.2)
          | Throw msg => (Throw msg, c.2)
          end
      | None => (Return None, c.2)
      end
  end.

(** [getPeerByPhone] *)
Definition getPeerByPhone (phone : string) (st : SqliteStorage)
  : outcome (option TypeInputPeer) * SqliteStorage :=
  match getEntByPhone phone (_db st) with
  | Some row =>
      match cache_row (SqliteEntity.id row) row st with
      | Return r => (Return (Some r.1), r.2)
      | Throw msg => (Throw msg, st)
      end
  | None => (Return None, st)
  end.

(** [getFullPeerById]: the decoded entity of the cache ([inl]), or
    [row.full], the bytes of the row ([inr]). *)
Definition getFullPeerById (id : Z) (st : SqliteStorage)
  : outcome (option (TlObject + Buffer.t)) * SqliteStorage :=
  let c := cache_get id st in
  match c.1 with
  | Some cached => (Return (Some (inl (Sqlite.full cached))), c.2)
  | None =>
      match getEntById id (_db c.2) with
      | Some row =>
          match cache_row id row c.2 with
          | Return r => (Return (Some (inr (SqliteEntity.full row))), r.2)
          | Throw msg => (Throw msg, c.2)
          end
      | None => (Return None, c.2)
      end
  end.

(** ['accessHash' in cached.peer && cached.peer.accessHash.eq(hash)] *)
Definition same_hash (p : TypeInputPeer) (hash : Long) : bool :=
  match p with
  | inputPeerUser _ h | inputPeerChannel _ h => h =? hash
  | inputPeerChat _ => false
  end.

(** The row [updatePeers] hands to [upsertEnt] for a peer. *)
Definition row_of (p : Peer) (now : Z) : SqliteEntity.t :=
  {| SqliteEntity.id := PeerInfo.id (info p);
     SqliteEntity.hash := serializeAccessHash (PeerInfo.accessHash (info p));
     SqliteEntity.type := PeerInfo.type (info p);
     SqliteEntity.username := username p;
     SqliteEntity.phone := phone p;
     SqliteEntity.updated := now;
     SqliteEntity.full := BinaryWriter_serializeObject (full p) |}.

(** The second branch of the loop of [updatePeers]: queue the [upsertEnt]
    of the peer and put the peer in the cache. *)
Definition upsert_peer (p : Peer) (now : Z) (st : SqliteStorage)
           (pending : gmap Z Unimportant) : outcome unit * Storage :=
  let st := push (upsertEnt (row_of p now)) st in
  match getInputPeer (inr (info p)) with
  | Return ip =>
      (Return tt,
       {| base := _addToCache (PeerInfo.id (info p))
                    {| Sqlite.peer := ip; Sqlite.full := full p |} st;
          _pendingUnimportant := pending |})
  | Throw msg => (Throw msg, {| base := st; _pendingUnimportant := pending |})
  end.

(** The first branch: note the update for later and change the entity of
    the cached item. *)
Definition note_peer (p : Peer) (now : Z) (cached : CacheItem) (st : SqliteStorage)
           (pending : gmap Z Unimportant) : outcome unit * Storage :=
  let id := PeerInfo.id (info p) in
  (Return tt,
   {| base :=
        {| _db := _db st; _pending := _pending st;
           _cache :=
             match _cache st with
             | Some cache =>
                 Some (LruMap_replace id
                         {| Sqlite.peer := Sqlite.peer cached; Sqlite.full := full p |}
                         cache)
             | None => None
             end |};
      _pendingUnimportant :=
        <[id := {| u_username := username p; u_phone := phone p;
                   u_updated := now;
                   u_full := BinaryWriter_serializeObject (full p);
                   u_id := id |}]> pending |}).

(** The body of the loop of [updatePeers] for one peer, [now] being the
    value of [Date.now()]. *)
Definition updatePeer (p : Peer) (now : Z) (s : Storage) : outcome unit * Storage :=
  let c := cache_get (PeerInfo.id (info p)) (base s) in
  match c.1 with
  | Some cached =>
      if same_hash (Sqlite.peer cached) (PeerInfo.accessHash (info p))
      then note_peer p now cached c.2 (_pendingUnimportant s)
      else upsert_peer p now c.2 (_pendingUnimportant s)
  | None => upsert_peer p now c.2 (_pendingUnimportant s)
  end.

(** [updatePeers]: the peers in order, each with its clock reading; the
    loop ends at the first peer that throws. *)
Fixpoint updatePeers (peers : list (Peer * Z)) (s : Storage) : outcome unit * Storage :=
  match peers with
  | [] => (Return tt, s)
  | (p, now) :: rest =>
      match updatePeer p now s with
      | (Return _, s') => updatePeers rest s'
      | (Throw msg, s') => (Throw msg, s')
      end
  end.

(** Whether [updatePeers] takes a peer for a known one, to be saved later. *)
Definition known (p : Peer) (s : Storage) : bool :=
  match (cache_get (PeerInfo.id (info p)) (base s)).1 with
  | Some cached => same_hash (Sqlite.peer cached) (PeerInfo.accessHash (info p))
  | None => false
  end.

End Peers.

End SqlitePeers.

(** The instance of the peer services that goes with [Demo.core]. *)
Module DemoPeers.

#[global] Instance cache : SqlitePeers.CoreCache := {|
  SqlitePeers.LruMap_get := fun V k m =>
    (snd <$> List.find (fun e => bool_decide (e.1 = k)) m, m);
  SqlitePeers.LruMap_replace := fun V k v m =>
    map (fun e => if bool_decide (e.1 = k) then (k, v) else e) m;
  SqlitePeers.BinaryWriter_serializeObject := fun o => o
|}.

(** A storage without cache and one with an empty cache, both fresh. *)
Definition plain : SqlitePeers.Storage :=
  {| SqlitePeers.base := Demo.fresh; SqlitePeers._pendingUnimportant := ∅ |}.

Definition cached : SqlitePeers.Storage :=
  {| SqlitePeers.base := Sqlite.load None (Sqlite.new (Some []));
     SqlitePeers._pendingUnimportant := ∅ |}.

Definition bob : SqlitePeers.Peer :=
  {| SqlitePeers.info := {| Sqlite.PeerInfo.id := 7; Sqlite.PeerInfo.accessHash := 99;
                            Sqlite.PeerInfo.type := "user" |};
     SqlitePeers.username := Some "bob";
     SqlitePeers.phone := Some "123";
     SqlitePeers.full := [Byte.x05] |}.

End DemoPeers.

(** ** Reading aids for the further properties of the storage *)

Module Reading.

(** The number a sequence of base-256 digits denotes, the most significant
    digit first. *)
Definition big_endian (digits : list Z) : Z :=
  fold_left (fun acc d => acc * 256 + d) digits 0.

(** The sign a sign byte stands for when a hash is parsed: any byte but
    zero means a negative number. *)
Definition sign_of (b : Byte.byte) : Z :=
  if Buffer.octet b =? 0 then 1 else -1.

(** The key of [kv] that a setter of the storage writes. *)
Definition kv_key {core : Sqlite.Core} (c : Sqlite.Call) : option string :=
  match c with
  | Sqlite.SetDefaultDc _ => Some "def_dc"
  | Sqlite.SetSelf _ => Some "self"
  | Sqlite.SetCommonPts _ => Some "cpts"
  | Sqlite.SetUpdatesPts _ => Some "pts"
  | Sqlite.SetUpdatesDate _ => Some "date"
  | Sqlite.SetUpdatesSeq _ => Some "seq"
  | _ => None
  end.

(** [row.type] of the argument of [getInputPeer]. *)
Definition row_type (row : SqliteEntity.t + Sqlite.PeerInfo.t) : string :=
  match row with
  | inl r => SqliteEntity.type r
  | inr p => Sqlite.PeerInfo.type p
  end.

(** The three peer types [getInputPeer] knows. *)
Definition peer_types : list string := ["user"; "chat"; "channel"].

End Reading.

(* ===================================================================== *)
(** * Part II: properties *)
(* ===================================================================== *)

(** ** Access hashes *)

Section AccessHash.

Import BigInteger.

Lemma toBase_loop_unfold base n out :
  toBase_loop base n out =
  if decide (2 <= base /\ base <= n)
  then toBase_loop base (n ÷ base) (out ++ [Z.rem n base])
  else out ++ [n].
Proof.
  rewrite toBase_loop_equation_1.
  destruct (decide (2 <= base /\ base <= n)); reflexivity.
Qed.

(** Reading the digits back, least significant first, gives the number. *)
Lemma toBase_loop_value base n out acc :
  2 <= base -> 0 <= n ->
  fst (fold_left (parse_step base) (toBase_loop base n out) acc) =
  fst (fold_left (parse_step base) out acc)
  + n * snd (fold_left (parse_step base) out acc).
Proof.
  intros Hb. revert out.
  pattern n. apply (well_founded_induction (Z.lt_wf 0)). clear n.
  intros n IH out Hn.
  rewrite toBase_loop_unfold.
  destruct (decide (2 <= base /\ base <= n)) as [[_ Hle]|_].
  - assert (0 < n ÷ base < n) as Hq.
    { split; [apply Z.quot_str_pos | apply Z.quot_lt]; lia. }
    rewrite IH by lia.
    rewrite fold_left_app. cbn [fold_left parse_step fst snd].
    pose proof (Z.quot_rem' n base). nia.
  - rewrite fold_left_app. reflexivity.
Qed.

(** Every digit fits a byte (more generally, is below the radix). *)
Lemma toBase_loop_digits base n out :
  2 <= base -> 0 <= n ->
  Forall (fun d => 0 <= d < base) out ->
  Forall (fun d => 0 <= d < base) (toBase_loop base n out).
Proof.
  intros Hb. revert out.
  pattern n. apply (well_founded_induction (Z.lt_wf 0)). clear n.
  intros n IH out Hn Hout.
  rewrite toBase_loop_unfold.
  destruct (decide (2 <= base /\ base <= n)) as [[_ Hle]|Hno].
  - assert (0 < n ÷ base < n) as Hq.
    { split; [apply Z.quot_str_pos | apply Z.quot_lt]; lia. }
    apply IH; [lia | lia |].
    apply Forall_app; split; [assumption|].
    constructor; [|constructor].
    rewrite Z.rem_mod_nonneg by lia. apply Z.mod_pos_bound. lia.
  - apply Forall_app; split; [assumption|].
    constructor; [lia|constructor].
Qed.

Lemma octet_of_number z : 0 <= z < 256 -> Buffer.octet (Buffer.of_number z) = z.
Proof.
  intros Hz. unfold Buffer.octet, Buffer.of_number.
  rewrite Z.mod_small by lia.
  destruct (Byte.of_N (Z.to_N z)) as [b|] eqn:E.
  - apply Byte.to_of_N in E. rewrite E. lia.
  - apply Byte.of_N_None_iff in E. lia.
Qed.

Lemma data_from arr :
  Forall (fun d => 0 <= d < 256) arr -> Buffer.data (Buffer.from arr) = arr.
Proof.
  unfold Buffer.data, Buffer.from.
  induction 1 as [|d arr Hd _ IH]; [reflexivity|].
  cbn [map]. rewrite octet_of_number by assumption. f_equal. exact IH.
Qed.

Lemma slice_last {A} (l : list A) x : Sqlite.slice_0_m1 (l ++ [x]) = l.
Proof. apply removelast_last. Qed.

Lemma parse_toBase n :
  0 <= n -> fst (fold_left (parse_step 256) (toBase_loop 256 n []) (0, 1)) = n.
Proof. intros Hn. rewrite toBase_loop_value by lia. cbn. lia. Qed.

End AccessHash.

(** C9. For every [tl.Long] [h], of any sign and size (so in particular for
    every 64-bit value), parsing the serialised access hash gives [h] back:
    [parseAccessHash(serializeAccessHash(h)) = h]. *)
Theorem access_hash_roundtrip (h : Tl.Long) :
  Sqlite.parseAccessHash (Sqlite.serializeAccessHash h) = h.
Proof.
  unfold Sqlite.parseAccessHash, Sqlite.serializeAccessHash, BigInteger.toArray.
  cbn [BigInteger.value BigInteger.isNegative].
  set (neg := (h <? 0) && (0 <? 256)).
  set (n := if neg then Z.abs h else h).
  assert (0 <= n) as Hn.
  { subst n neg. destruct (Z.ltb_spec h 0); cbn; lia. }
  rewrite data_from.
  2:{ apply Forall_app; split.
      - apply Forall_rev. apply toBase_loop_digits; [lia|lia|constructor].
      - constructor; [destruct neg; lia|constructor]. }
  rewrite slice_last.
  unfold Sqlite.last_truthy. rewrite last_snoc.
  unfold BigInteger.fromArray, BigInteger.parseBaseFromArray.
  rewrite rev_involutive, parse_toBase by assumption.
  subst n neg. destruct (Z.ltb_spec h 0); cbn; lia.
Qed.

(** ** The storage: pending statements and [save] *)

Section StorageFacts.

Import Sqlite.
Context `{Core}.

Implicit Types (st : SqliteStorage) (db : Database) (w : Write).

Lemma _runMany_snoc ws w db : _runMany (ws ++ [w]) db = run w (_runMany ws db).
Proof. unfold _runMany. rewrite fold_left_app. reflexivity. Qed.

Lemma _runMany_app ws ws' db : _runMany (ws ++ ws') db = _runMany ws' (_runMany ws db).
Proof. unfold _runMany. apply fold_left_app. Qed.

Lemma db_save st : _db (save st) = flushed st.
Proof. unfold save, flushed. destruct (_pending st); reflexivity. Qed.

Lemma pending_save st : _pending (save st) = [].
Proof. unfold save. destruct (_pending st) eqn:E; [exact E | reflexivity]. Qed.

Lemma flushed_save st : flushed (save st) = flushed st.
Proof. unfold flushed at 1. rewrite pending_save, db_save. reflexivity. Qed.

Lemma flushed_push w st : flushed (push w st) = run w (flushed st).
Proof. unfold flushed, push. cbn. apply _runMany_snoc. Qed.

Lemma db_push w st : _db (push w st) = _db st.
Proof. reflexivity. Qed.

(** A statement that does not write a row leaves it as it was. *)
Lemma run_kv_other key w db :
  writes_kv key w = false -> kv (run w db) !! key = kv db !! key.
Proof.
  destruct w; cbn; intros Hw; try reflexivity;
    apply bool_decide_eq_false in Hw.
  - by rewrite lookup_insert_ne.
  - by rewrite lookup_delete_ne.
Qed.

Lemma run_pts_other cid w db :
  writes_pts cid w = false -> pts (run w db) !! cid = pts db !! cid.
Proof.
  destruct w; cbn; intros Hw; try reflexivity.
  apply bool_decide_eq_false in Hw. by rewrite lookup_insert_ne.
Qed.

Lemma _runMany_kv_other key ws db :
  Forall (fun w => writes_kv key w = false) ws ->
  kv (_runMany ws db) !! key = kv db !! key.
Proof.
  intros Hws. revert db.
  induction Hws as [|w ws Hw _ IH]; intros db; [reflexivity|].
  cbn. change (kv (_runMany ws (run w db)) !! key = kv db !! key).
  rewrite IH. by apply run_kv_other.
Qed.

Lemma _runMany_pts_other cid ws db :
  Forall (fun w => writes_pts cid w = false) ws ->
  pts (_runMany ws db) !! cid = pts db !! cid.
Proof.
  intros Hws. revert db.
  induction Hws as [|w ws Hw _ IH]; intros db; [reflexivity|].
  cbn. change (pts (_runMany ws (run w db)) !! cid = pts db !! cid).
  rewrite IH. by apply run_pts_other.
Qed.

(** [getPeerByUsername] touches the cache only. *)
Lemma getPeerByUsername_db username now st :
  _db (getPeerByUsername username now st).2 = _db st /\
  _pending (getPeerByUsername username now st).2 = _pending st.
Proof.
  unfold getPeerByUsername.
  destruct (getEntByUser _ _) as [row|]; [|done].
  destruct (_ >? _); [done|].
  destruct (getInputPeer _); [|done].
  destruct (_readFullPeer _); [|done].
  cbn. unfold _addToCache. by destruct (_cache st).
Qed.

(** [setManyChannelPts] appends one [setPts] per entry. *)
Lemma setManyChannelPts_pending values st :
  _pending (setManyChannelPts values st) =
    _pending st ++ map (fun e => setPts e.1 e.2) (map_to_list values) /\
  _db (setManyChannelPts values st) = _db st.
Proof.
  unfold setManyChannelPts.
  generalize (map_to_list values) as l. intros l. revert st.
  induction l as [|e l IH]; intros st; cbn.
  - by rewrite app_nil_r.
  - destruct (IH (push (setPts e.1 e.2) st)) as [-> ->].
    cbn. by rewrite <- app_assoc.
Qed.

(** Calls other than [save] and [reset] leave the database alone. *)
Lemma db_call_quiet c (st : SqliteStorage) :
  is_Save c = false -> is_Reset c = false -> _db (call c st) = _db st.
Proof.
  intros Hs Hr. destruct c; try discriminate; cbn [call]; try reflexivity.
  - apply setManyChannelPts_pending.
  - apply getPeerByUsername_db.
Qed.

Lemma db_calls_quiet cs (st : SqliteStorage) :
  Forall (fun c => is_Save c = false /\ is_Reset c = false) cs ->
  _db (calls cs st) = _db st.
Proof.
  intros Hcs. revert st.
  induction Hcs as [|c cs [Hs Hr] _ IH]; intros st; [reflexivity|].
  change (calls (c :: cs) st) with (calls cs (call c st)).
  rewrite IH. by apply db_call_quiet.
Qed.

End StorageFacts.

Section AuthKeys.

Import Sqlite.
Context `{Core}.

(** C5. Whatever the storage held and whatever was pending:
    [setAuthKeyFor(dc, key)] followed by [save()] makes [getAuthKeyFor(dc)]
    return exactly [key], and [setAuthKeyFor(dc, null)] followed by
    [save()] makes it return [null]. *)
Theorem auth_key_roundtrip (st : SqliteStorage) (dc : Z) (key : Buffer.t) :
  getAuthKeyFor dc (save (setAuthKeyFor dc (Some key) st)) = Some key /\
  getAuthKeyFor dc (save (setAuthKeyFor dc None st)) = None.
Proof.
  unfold getAuthKeyFor, getAuth, setAuthKeyFor.
  rewrite !db_save, !flushed_push. cbn.
  by rewrite lookup_insert_eq, lookup_delete_eq.
Qed.

Lemma RESET_auth_keys db : auth_keys (RESET db) = ∅.
Proof.
  apply map_eq. intros dc. rewrite lookup_empty. cbn.
  apply map_lookup_filter_None. right. intros key _. cbn. discriminate.
Qed.

(** C6. After [reset()], [getAuthKeyFor(dc)] returns [null] for every
    [dc], whatever keys the table held before. *)
Theorem reset_destroys_auth_keys (st : SqliteStorage) (dc : Z) :
  getAuthKeyFor dc (reset st) = None.
Proof.
  unfold getAuthKeyFor, getAuth, reset, with_db. cbn [_db].
  by rewrite RESET_auth_keys.
Qed.

(** C10. Writes are buffered until [save()]: [setAuthKeyFor] leaves the
    database as it was and only lengthens the pending queue by its
    statement, so that [getAuthKeyFor] of any [dc] still returns what it
    returned before, also after further calls [cs] as long as none of them
    is a [save()] (or a [reset()]); one [save()] runs all the pending
    statements, in their order, as one [_runMany] transaction, and leaves
    the queue empty. *)
Theorem writes_buffered_until_save (st : SqliteStorage) (dc dc' : Z)
        (key : option Buffer.t) (cs : list Call) :
  getAuthKeyFor dc' (setAuthKeyFor dc key st) = getAuthKeyFor dc' st /\
  (Forall (fun c => is_Save c = false /\ is_Reset c = false) cs ->
   getAuthKeyFor dc' (calls cs (setAuthKeyFor dc key st)) = getAuthKeyFor dc' st) /\
  _db (setAuthKeyFor dc key st) = _db st /\
  (exists w, _pending (setAuthKeyFor dc key st) = _pending st ++ [w]) /\
  _db (save st) = _runMany (_pending st) (_db st) /\
  _pending (save st) = [].
Proof.
  split; [reflexivity|]. split; [|split; [reflexivity|split; [|split]]].
  - intros Hcs. unfold getAuthKeyFor. by rewrite db_calls_quiet.
  - eexists. reflexivity.
  - apply db_save.
  - apply pending_save.
Qed.

End AuthKeys.

Section ChannelPts.

Import Sqlite.
Context `{Core}.

Lemma _runMany_setPts (l : list (Z * Z)) cid v db :
  NoDup l.*1 -> (cid, v) ∈ l ->
  pts (_runMany (map (fun e => setPts e.1 e.2) l) db) !! cid = Some v.
Proof.
  intros Hnd Hin. revert db.
  induction l as [|[c p] l IH]; intros db; [by apply elem_of_nil in Hin|].
  cbn in Hnd. apply NoDup_cons in Hnd as [Hc Hnd].
  cbn [map]. change (pts (_runMany (map (fun e => setPts e.1 e.2) l)
                                   (run (setPts c p) db)) !! cid = Some v).
  apply elem_of_cons in Hin as [Heq|Hin].
  - injection Heq as <- <-.
    rewrite _runMany_pts_other.
    + cbn. apply lookup_insert_eq.
    + apply Forall_forall. intros w Hw.
      apply list_elem_of_In, in_map_iff in Hw as ([c' p'] & <- & Hin').
      cbn. apply bool_decide_eq_false. intros ->.
      apply Hc. apply list_elem_of_fmap. exists (cid, p'). split; [done|].
      by apply list_elem_of_In.
  - by apply IH.
Qed.

Lemma channel_unset_push cid w st :
  writes_pts cid w = false -> channel_unset cid st -> channel_unset cid (push w st).
Proof.
  intros Hw [Hdb Hp]. split; [exact Hdb|].
  cbn. apply Forall_app. split; [exact Hp|]. by constructor.
Qed.

Lemma channel_unset_setToKv cid key value st :
  channel_unset cid st -> channel_unset cid (_setToKv key value false st).
Proof.
  intros Hst. unfold _setToKv. apply channel_unset_push; [|exact Hst].
  by destruct (JSON.is_null value).
Qed.

Lemma channel_unset_call cid c st :
  sets_channel cid c = false -> channel_unset cid st -> channel_unset cid (call c st).
Proof.
  intros Hc Hst.
  destruct c; cbn [call];
    try (by apply channel_unset_setToKv).
  - (* save *)
    destruct Hst as [Hdb Hp]. split.
    + rewrite db_save. unfold flushed. by rewrite _runMany_pts_other.
    + rewrite pending_save. constructor.
  - (* reset *)
    destruct Hst as [Hdb Hp]. split; [apply lookup_empty | exact Hp].
  - (* setAuthKeyFor *)
    apply channel_unset_push; [|exact Hst]. by destruct key.
  - (* setManyChannelPts *)
    destruct Hst as [Hdb Hp].
    destruct (setManyChannelPts_pending values st) as [Hpend Hsame].
    split; [by rewrite Hsame|]. rewrite Hpend.
    apply Forall_app. split; [exact Hp|].
    apply Forall_forall. intros w Hw.
    apply list_elem_of_In, in_map_iff in Hw as ([c' p'] & <- & Hin').
    cbn. apply bool_decide_eq_false. intros ->.
    cbn in Hc. apply bool_decide_eq_false in Hc. apply Hc.
    exists p'. apply elem_of_map_to_list. by apply list_elem_of_In.
  - (* getPeerByUsername *)
    destruct Hst as [Hdb Hp].
    destruct (getPeerByUsername_db username now st) as [Hsame Hpend].
    split; [by rewrite Hsame | by rewrite Hpend].
Qed.

Lemma channel_unset_calls cid cs st :
  Forall (fun c => sets_channel cid c = false) cs ->
  channel_unset cid st -> channel_unset cid (calls cs st).
Proof.
  intros Hcs. revert st.
  induction Hcs as [|c cs Hc _ IH]; intros st Hst; [exact Hst|].
  cbn. apply IH. by apply channel_unset_call.
Qed.

(** C8. (1) For every object [values] that gives channel [cid] the value
    [v] (in particular for [{cid: v}]), [setManyChannelPts(values)]
    followed by [save()] makes [getChannelPts(cid)] return [v].
    (2) For a channel that was never set, [getChannelPts] returns [null]:
    when the storage has neither a row nor a pending statement for [cid],
    it has none after any sequence of calls in which no
    [setManyChannelPts] mentions [cid]. *)
Theorem channel_pts_roundtrip (st : SqliteStorage) (values : gmap Z Z)
        (cid v : Z) (cs : list Call) :
  (values !! cid = Some v ->
   getChannelPts cid (save (setManyChannelPts values st)) = Some v) /\
  getChannelPts cid (save (setManyChannelPts {[cid := v]} st)) = Some v /\
  (channel_unset cid st ->
   Forall (fun c => sets_channel cid c = false) cs ->
   getChannelPts cid (calls cs st) = None).
Proof.
  assert (forall vs, vs !! cid = Some v ->
            getChannelPts cid (save (setManyChannelPts vs st)) = Some v) as Hset.
  { intros vs Hv. unfold getChannelPts, getPts.
    rewrite db_save. unfold flushed.
    destruct (setManyChannelPts_pending vs st) as [-> ->].
    rewrite _runMany_app. apply _runMany_setPts.
    - apply NoDup_fst_map_to_list.
    - by apply elem_of_map_to_list. }
  split; [apply Hset|]. split.
  - apply Hset. apply lookup_singleton_eq.
  - intros Hst Hcs. by destruct (channel_unset_calls cid cs st Hcs Hst).
Qed.

End ChannelPts.

(** ** The [kv] table and the updates state *)

Section JsonFacts.

Lemma to_int_proper n :
  Z.to_int n <> Decimal.Pos Decimal.Nil /\ Z.to_int n <> Decimal.Neg Decimal.Nil.
Proof.
  destruct n as [|q|q]; cbn; split; try discriminate;
    intros [= E]; by apply DecimalPos.Unsigned.to_uint_nonnil in E.
Qed.

Lemma parse_number_stringify n :
  JSON.parse_number (JSON.stringify_number n) = Some n.
Proof.
  unfold JSON.parse_number, JSON.stringify_number.
  destruct (to_int_proper n) as [Hp Hn].
  rewrite NilZero.isi by assumption.
  rewrite DecimalZ.of_to. by rewrite String.eqb_refl.
Qed.

Lemma stringify_number_not_null n :
  String.eqb (JSON.stringify_number n) "null" = false.
Proof.
  apply String.eqb_neq. intros E.
  pose proof (parse_number_stringify n) as Hn. rewrite E in Hn.
  discriminate Hn.
Qed.

(** A number written to [kv] is read back as the same number. *)
Lemma parse_stringify_number n :
  JSON.parse (JSON.stringify (JSON.Number n)) = JSON.Number n.
Proof.
  unfold JSON.parse. cbn [JSON.stringify].
  by rewrite stringify_number_not_null, parse_number_stringify.
Qed.

End JsonFacts.

Section UpdatesState.

Import Sqlite.
Context `{Core}.

Lemma calls_snoc cs c (st : SqliteStorage) : calls (cs ++ [c]) st = call c (calls cs st).
Proof. unfold calls. by rewrite fold_left_app. Qed.

Lemma calls_app cs cs' (st : SqliteStorage) : calls (cs ++ cs') st = calls cs' (calls cs st).
Proof. unfold calls. apply fold_left_app. Qed.

Lemma flushed_setToKv key value (st : SqliteStorage) :
  flushed (_setToKv key value false st) =
  run (if JSON.is_null value then delKv key else setKv key (JSON.stringify value))
      (flushed st).
Proof. unfold _setToKv. apply flushed_push. Qed.

Lemma flushed_setManyChannelPts values (st : SqliteStorage) key :
  kv (flushed (setManyChannelPts values st)) !! key = kv (flushed st) !! key.
Proof.
  unfold flushed.
  destruct (setManyChannelPts_pending values st) as [-> ->].
  rewrite _runMany_app. apply _runMany_kv_other.
  apply Forall_forall. intros w Hw.
  by apply list_elem_of_In, in_map_iff in Hw as (e & <- & _).
Qed.

Lemma flushed_getPeerByUsername username now (st : SqliteStorage) :
  flushed (getPeerByUsername username now st).2 = flushed st.
Proof.
  unfold flushed.
  by destruct (getPeerByUsername_db username now st) as [-> ->].
Qed.

Ltac track_call :=
  intros c st Hc; destruct c; try discriminate Hc; cbn [call];
  rewrite ?flushed_save, ?flushed_setManyChannelPts, ?flushed_getPeerByUsername;
  try reflexivity;
  unfold setDefaultDc, setSelf, setCommonPts, setUpdatesPts, setUpdatesDate,
    setUpdatesSeq, setAuthKeyFor;
  rewrite ?flushed_setToKv, ?flushed_push;
  cbn [JSON.is_null];
  repeat match goal with
         | |- context [JSON.is_null ?v] => destruct (JSON.is_null v)
         | |- context [match ?k with Some _ => _ | None => _ end] => destruct k
         end;
  cbn [run kv JSON.stringify];
  rewrite ?lookup_insert_eq; try reflexivity;
  (rewrite lookup_insert_ne by discriminate) ||
  (rewrite lookup_delete_ne by discriminate);
  reflexivity.

Lemma tracks_pts :
  tracks "pts" (fun c => match c with SetUpdatesPts v => Some v | _ => None end).
Proof. track_call. Qed.

Lemma tracks_date :
  tracks "date" (fun c => match c with SetUpdatesDate v => Some v | _ => None end).
Proof. track_call. Qed.

Lemma tracks_seq :
  tracks "seq" (fun c => match c with SetUpdatesSeq v => Some v | _ => None end).
Proof. track_call. Qed.

(** After a sequence of calls without [reset], the next [save] leaves
    under [key] the value of the last setter in charge of it. *)
Lemma kv_last key sel cs (st : SqliteStorage) v :
  tracks key sel ->
  Forall (fun c => is_Reset c = false) cs ->
  last (omap sel cs) = Some v ->
  kv (flushed (calls cs st)) !! key = Some (JSON.stringify_number v).
Proof.
  intros Htr. revert v.
  induction cs as [|c cs IH] using rev_ind; intros v Hcs Hlast; [discriminate|].
  apply Forall_app in Hcs as [Hcs Hc]. apply Forall_cons in Hc as [Hc _].
  rewrite calls_snoc, (Htr _ _ Hc).
  rewrite omap_app in Hlast. cbn in Hlast.
  destruct (sel c) as [v'|].
  - rewrite last_snoc in Hlast. by injection Hlast as ->.
  - rewrite app_nil_r in Hlast. by apply IH.
Qed.

Lemma kv_unset_push key w (st : SqliteStorage) :
  writes_kv key w = false -> kv_unset key st -> kv_unset key (push w st).
Proof.
  intros Hw [Hdb Hp]. split; [exact Hdb|].
  cbn. apply Forall_app. split; [exact Hp|]. by constructor.
Qed.

Lemma kv_unset_pts_call c (st : SqliteStorage) :
  match c with SetUpdatesPts _ => False | _ => True end ->
  kv_unset "pts" st -> kv_unset "pts" (call c st).
Proof.
  intros Hc Hst.
  destruct c; try contradiction; cbn [call];
    unfold setDefaultDc, setSelf, setCommonPts, setUpdatesDate, setUpdatesSeq,
      setAuthKeyFor, _setToKv;
    try (apply kv_unset_push; [|exact Hst];
         cbn [JSON.is_null];
         repeat match goal with
                | |- context [JSON.is_null ?v] => destruct (JSON.is_null v)
                | |- context [match ?k with Some _ => _ | None => _ end] => destruct k
                end; reflexivity).
  - (* save *)
    destruct Hst as [Hdb Hp]. split.
    + rewrite db_save. unfold flushed. by rewrite _runMany_kv_other.
    + rewrite pending_save. constructor.
  - (* reset *)
    destruct Hst as [Hdb Hp]. split; [apply lookup_empty | exact Hp].
  - (* setManyChannelPts *)
    destruct Hst as [Hdb Hp].
    destruct (setManyChannelPts_pending values st) as [Hpend Hsame].
    split; [by rewrite Hsame|]. rewrite Hpend.
    apply Forall_app. split; [exact Hp|].
    apply Forall_forall. intros w Hw.
    by apply list_elem_of_In, in_map_iff in Hw as (e & <- & _).
  - (* getPeerByUsername *)
    destruct Hst as [Hdb Hp].
    destruct (getPeerByUsername_db username now st) as [Hsame Hpend].
    split; [by rewrite Hsame | by rewrite Hpend].
Qed.

Lemma kv_unset_pts_calls cs (st : SqliteStorage) :
  last_pts cs = None -> kv_unset "pts" st -> kv_unset "pts" (calls cs st).
Proof.
  unfold last_pts. rewrite last_None. revert st.
  induction cs as [|c cs IH]; intros st Hnone Hst; [exact Hst|].
  cbn in Hnone |- *.
  apply IH.
  - by destruct c.
  - apply kv_unset_pts_call; [|exact Hst]. by destruct c.
Qed.

Lemma getUpdatesState_unset (st : SqliteStorage) :
  kv (_db st) !! "pts" = None -> getUpdatesState st = None.
Proof.
  intros Hp. unfold getUpdatesState, _getFromKv, getKv. by rewrite Hp.
Qed.

Lemma getUpdatesState_numbers (st : SqliteStorage) p d s :
  kv (_db st) !! "pts" = Some (JSON.stringify_number p) ->
  kv (_db st) !! "date" = Some (JSON.stringify_number d) ->
  kv (_db st) !! "seq" = Some (JSON.stringify_number s) ->
  getUpdatesState st = Some (JSON.Number p, JSON.Number d, JSON.Number s).
Proof.
  intros Hp Hd Hs. unfold getUpdatesState, _getFromKv, getKv.
  rewrite Hp, Hd, Hs.
  change (JSON.stringify_number ?n) with (JSON.stringify (JSON.Number n)).
  by rewrite !parse_stringify_number.
Qed.

(** C7. (1) [getUpdatesState] returns [null] when no global pts was ever
    persisted: from a storage with neither a row nor a pending statement
    for [pts], after any sequence of calls without [setUpdatesPts].
    (2) Otherwise it returns the triple of the last values given to
    [setUpdatesPts], [setUpdatesDate] and [setUpdatesSeq] that a [save()]
    flushed: after calls [cs1] (without [reset]), one [save()], and calls
    [cs2] that neither save nor reset, the result is [[p, d, s]] for the
    last values [p], [d], [s] set in [cs1]. *)
Theorem updates_state_roundtrip (st : SqliteStorage) (cs cs1 cs2 : list Call)
        (p d s : Z) :
  (kv_unset "pts" st -> last_pts cs = None ->
   getUpdatesState (calls cs st) = None) /\
  (Forall (fun c => is_Reset c = false) cs1 ->
   Forall (fun c => is_Save c = false /\ is_Reset c = false) cs2 ->
   last_pts cs1 = Some p -> last_date cs1 = Some d -> last_seq cs1 = Some s ->
   getUpdatesState (calls (cs1 ++ Save :: cs2) st) =
     Some (JSON.Number p, JSON.Number d, JSON.Number s)).
Proof.
  split.
  - intros Hst Hcs. apply getUpdatesState_unset.
    by destruct (kv_unset_pts_calls cs st Hcs Hst).
  - intros Hcs1 Hcs2 Hp Hd Hs.
    rewrite calls_app. cbn [calls fold_left call].
    change (fold_left (fun s c => call c s) cs2 ?x) with (calls cs2 x).
    apply getUpdatesState_numbers;
      rewrite db_calls_quiet, db_save by assumption.
    + by apply (kv_last _ _ _ _ _ tracks_pts).
    + by apply (kv_last _ _ _ _ _ tracks_date).
    + by apply (kv_last _ _ _ _ _ tracks_seq).
Qed.

End UpdatesState.

(** ** Lookup by username *)

Section Username.

Import Sqlite.
Context `{Core}.

Lemma first_row_In rows r : first_row rows = Some r -> In r rows.
Proof.
  revert r. induction rows as [|x rows IH]; intros r; cbn; [discriminate|].
  destruct (first_row rows) as [r'|].
  - destruct (SqliteEntity.id r' <? SqliteEntity.id x); intros [= <-];
      [right; by apply IH | by left].
  - intros [= <-]. by left.
Qed.

(** The row the query returns is a row of the table with that name. *)
Lemma getEntByUser_stored username db row :
  getEntByUser username db = Some row ->
  SqliteEntity.username row = Some username /\
  exists k, entities db !! k = Some row.
Proof.
  unfold getEntByUser. intros Hrow%first_row_In.
  apply filter_In in Hrow as [Hin Hname].
  apply bool_decide_eq_true in Hname. split; [exact Hname|].
  apply in_map_iff in Hin as ([k r] & <- & Hin).
  exists k. apply elem_of_map_to_list. by apply list_elem_of_In.
Qed.

(** A row of one of the three peer types gives an input peer. *)
Lemma getInputPeer_row row :
  In (SqliteEntity.type row) ["user"; "chat"; "channel"] ->
  exists peer, getInputPeer (inl row) = Return peer.
Proof.
  unfold getInputPeer.
  intros [<-|[<-|[<-|[]]]]; cbn; eauto.
Qed.

(** C4, as amended.  Let [row] be the entity row the lookup of the
    lower-cased username finds.  When its [updated] time is more than
    86400000 ms (24 hours) before [now], [getPeerByUsername] returns [null]
    and leaves the storage as it is.  When it is within that time:
    - if the reader decodes the serialised entity of the row,
      [getPeerByUsername] returns the input peer built from the row: for
      the type [user] the peer [inputPeerUser] with the id of the row and
      the access hash parsed from its [hash] column, for [chat] the peer
      [inputPeerChat] with the negated id, for [channel] the peer
      [inputPeerChannel] with [MAX_CHANNEL_ID - id] and the parsed access
      hash;
    - if the type of the row is none of the three, it throws
      [Invalid peer type: <type>] and leaves the storage as it is;
    - if the type is one of the three and the reader throws on the
      serialised entity, it throws and leaves the storage as it is. *)
Theorem username_lookup_ttl (st : SqliteStorage) (username : string) (now : Z)
        (row : SqliteEntity.t) :
  getEntByUser (toLowerCase username) (_db st) = Some row ->
  (now - SqliteEntity.updated row > 86400000 ->
   getPeerByUsername username now st = (Return None, st)) /\
  (now - SqliteEntity.updated row <= 86400000 ->
   (is_Some (_readFullPeer (SqliteEntity.full row)) ->
    (SqliteEntity.type row = "user" ->
     (getPeerByUsername username now st).1 =
       Return (Some (Tl.inputPeerUser (SqliteEntity.id row)
                       (parseAccessHash (SqliteEntity.hash row))))) /\
    (SqliteEntity.type row = "chat" ->
     (getPeerByUsername username now st).1 =
       Return (Some (Tl.inputPeerChat (- SqliteEntity.id row)))) /\
    (SqliteEntity.type row = "channel" ->
     (getPeerByUsername username now st).1 =
       Return (Some (Tl.inputPeerChannel (MAX_CHANNEL_ID - SqliteEntity.id row)
                       (parseAccessHash (SqliteEntity.hash row)))))) /\
   (~ In (SqliteEntity.type row) ["user"; "chat"; "channel"] ->
    getPeerByUsername username now st =
      (Throw ("Invalid peer type: " +:+ SqliteEntity.type row), st)) /\
   (In (SqliteEntity.type row) ["user"; "chat"; "channel"] ->
    _readFullPeer (SqliteEntity.full row) = None ->
    exists msg, getPeerByUsername username now st = (Throw msg, st))).
Proof.
  intros Hrow. unfold getPeerByUsername. rewrite Hrow.
  unfold USERNAME_TTL. split.
  - intros Hold. destruct (Z.gtb_spec (now - SqliteEntity.updated row) 86400000);
      [reflexivity | lia].
  - intros Hfresh.
    destruct (Z.gtb_spec (now - SqliteEntity.updated row) 86400000); [lia|].
    split; [|split].
    + intros [full Hfull]. unfold getInputPeer.
      repeat split; intros ->; cbn; by rewrite Hfull.
    + intros Hno. unfold getInputPeer.
      destruct (String.eqb_spec (SqliteEntity.type row) "user") as [E|_];
        [exfalso; apply Hno; rewrite E; by left|].
      destruct (String.eqb_spec (SqliteEntity.type row) "chat") as [E|_];
        [exfalso; apply Hno; rewrite E; right; by left|].
      destruct (String.eqb_spec (SqliteEntity.type row) "channel") as [E|_];
        [exfalso; apply Hno; rewrite E; right; right; by left|].
      reflexivity.
    + intros Htype Hfull.
      destruct (getInputPeer_row row Htype) as [peer ->].
      rewrite Hfull. by eexists.
Qed.

End Username.

(** C4, as stated, fails for a stored row within the 24 hours that is not
    well formed.  The row of [eve], of type [bot], is found by its username
    one millisecond after its update, and the lookup throws
    [Invalid peer type: bot]: no input peer is returned.  And over a reader
    that throws on the empty buffer, the row of [alice], of type [user] and
    with an empty serialised entity, is found within the 24 hours, and the
    lookup throws as well. *)
Lemma username_lookup_ttl_counterexample :
  (Sqlite.getEntByUser (Sqlite.toLowerCase "eve") (Sqlite._db Demo.with_eve)
     = Some Demo.eve /\
   1001 - SqliteEntity.updated Demo.eve <= 86400000 /\
   Sqlite.getPeerByUsername "eve" 1001 Demo.with_eve
     = (Throw "Invalid peer type: bot", Demo.with_eve) /\
   forall peer,
     (Sqlite.getPeerByUsername "eve" 1001 Demo.with_eve).1 <> Return (Some peer)) /\
  (Sqlite.getEntByUser (Sqlite.toLowerCase "alice") (Sqlite._db Demo.strict_with_alice)
     = Some Demo.alice /\
   1001 - SqliteEntity.updated Demo.alice <= 86400000 /\
   SqliteEntity.type Demo.alice = "user" /\
   (exists msg, Sqlite.getPeerByUsername "alice" 1001 Demo.strict_with_alice
                = (Throw msg, Demo.strict_with_alice)) /\
   forall peer,
     (Sqlite.getPeerByUsername "alice" 1001 Demo.strict_with_alice).1
       <> Return (Some peer)).
Proof.
  split.
  - split; [vm_compute; reflexivity|].
    split; [vm_compute; discriminate|].
    split; [vm_compute; reflexivity|].
    intros peer. vm_compute. discriminate.
  - split; [vm_compute; reflexivity|].
    split; [vm_compute; discriminate|].
    split; [reflexivity|].
    split; [eexists; vm_compute; reflexivity|].
    intros peer. vm_compute. discriminate.
Qed.

(** ** The rule of the Update Manager *)

Section UpdateRule.

Import UpdateManager.
Context {Update : Type}.

Implicit Types (s : Stream Update) (b : Batch Update).




End UpdateRule.


(** ** Message identifiers and sequence numbers *)

Section SessionRules.

Import Session.

Lemma next_msg_id_gt clock s : last_msg_id s < next_msg_id clock s.
Proof.
  unfold next_msg_id. destruct (Z.ltb_spec (last_msg_id s) clock); lia.
Qed.

Lemma sends_app l l' s :
  sends (l ++ l') s =
  ((sends l s).1 ++ (sends l' (sends l s).2).1, (sends l' (sends l s).2).2).
Proof.
  revert s. induction l as [|[k c] l IH]; intros s; cbn.
  - by destruct (sends l' s).
  - by rewrite IH.
Qed.

(** All identifiers of a run are beyond the last one given out before. *)
Lemma sends_ids_gt l s :
  Forall (fun m => last_msg_id s < msg_id m) (sends l s).1.
Proof.
  revert s. induction l as [|[k c] l IH]; intros s; cbn; constructor.
  - cbn. apply next_msg_id_gt.
  - eapply Forall_impl; [apply IH|].
    intros m Hm. cbn in Hm. pose proof (next_msg_id_gt c s). lia.
Qed.

Lemma sends_sorted l s : StronglySorted Z.lt (map msg_id (sends l s).1).
Proof.
  revert s. induction l as [|[k c] l IH]; intros s; cbn; constructor.
  - apply IH.
  - apply Forall_map. apply (sends_ids_gt l (send k c s).2).
Qed.

Lemma sends_last_id l s : last_msg_id s <= last_msg_id (sends l s).2.
Proof.
  revert s. induction l as [|[k c] l IH]; intros s; cbn; [lia|].
  etransitivity; [|apply IH]. cbn. pose proof (next_msg_id_gt c s). lia.
Qed.

Lemma sends_even l s : Z.even (seq s) = true -> Z.even (seq (sends l s).2) = true.
Proof.
  revert s. induction l as [|[k c] l IH]; intros s Hs; cbn; [exact Hs|].
  apply IH. destruct k; cbn; [|exact Hs].
  by rewrite Z.even_add, Hs.
Qed.

(** C2. For every sequence of sends [l] on a session, followed by one
    more send: the identifiers assigned along the whole sequence are
    strictly increasing, whatever the clock readings (so also when the
    clock did not advance); the new identifier is beyond the last one; and
    the sequence counter, which is even, gives a content message the next
    odd value and moves on by two, and gives a service message its own
    even value and stays. *)
Theorem msg_id_seqno_rules (l : list (Kind * Z)) (k : Kind) (clock : Z) :
  let s := (sends l fresh).2 in
  let m := (send k clock s).1 in
  let s' := (send k clock s).2 in
  StronglySorted Z.lt (map msg_id (sends (l ++ [(k, clock)]) fresh).1) /\
  last (sends (l ++ [(k, clock)]) fresh).1 = Some m /\
  last_msg_id s < msg_id m /\
  Z.even (seq s) = true /\
  match k with
  | Content => seqno m = seq s + 1 /\ Z.odd (seqno m) = true /\ seq s' = seq s + 2
  | Service => seqno m = seq s /\ Z.even (seqno m) = true /\ seq s' = seq s
  end.
Proof.
  intros s m s'.
  assert (Z.even (seq s) = true) as Hev by (by apply sends_even).
  repeat split.
  - apply sends_sorted.
  - rewrite sends_app. cbn. apply last_snoc.
  - apply next_msg_id_gt.
  - exact Hev.
  - destruct k; cbn; repeat split; try done.
    rewrite Z.odd_add, <- Z.negb_even, Hev. reflexivity.
Qed.

End SessionRules.

(** ** Diffie-Hellman parameters *)

Section DhParameters.

Import Crypto.

Lemma is_prime_spec p : is_prime p = true <-> Z.prime p.
Proof.
  unfold is_prime, Z.prime.
  rewrite andb_true_iff, Z.ltb_lt, forallb_forall.
  split; intros [Hp Hall]; split; try exact Hp.
  - intros n Hn Hdiv.
    assert (In n (map Z.of_nat (seq 2 (Z.to_nat p - 2)))) as Hin.
    { apply in_map_iff. exists (Z.to_nat n). split; [lia|].
      apply in_seq. lia. }
    apply Hall in Hin. apply negb_true_iff, Z.eqb_neq in Hin.
    apply Hin. apply Z.mod_divide; [lia | exact Hdiv].
  - intros d Hin. apply in_map_iff in Hin as (i & <- & Hi).
    apply in_seq in Hi. apply negb_true_iff, Z.eqb_neq.
    intros Hmod. apply (Hall (Z.of_nat i)); [lia|].
    apply Z.mod_divide; [lia | exact Hmod].
Qed.

Lemma is_safe_prime_spec p : is_safe_prime p = true <-> safe_prime p.
Proof.
  unfold is_safe_prime, safe_prime.
  by rewrite andb_true_iff, !is_prime_spec.
Qed.

Lemma checks_spec bits p gb :
  is_safe_prime p && (bit_length p =? bits) && (1 <? gb) && (gb <? p - 1) = true
  <-> valid_parameters bits p gb.
Proof.
  unfold valid_parameters.
  rewrite !andb_true_iff, is_safe_prime_spec, Z.eqb_eq, !Z.ltb_lt. tauto.
Qed.

(** C3. [computeSharedSecret] fails with [InvalidDhParameters] exactly
    when [prime] is not a safe prime of the expected bit length or
    [theirPower] is not strictly between 1 and [prime - 1]; it succeeds
    only when both conditions hold, and then with the shared secret. *)
Theorem dh_parameters_checked (bits g p ourExponent theirPower : Z) :
  (computeSharedSecret bits g p ourExponent theirPower = Err InvalidDhParameters
   <-> ~ valid_parameters bits p theirPower) /\
  (forall secret,
     computeSharedSecret bits g p ourExponent theirPower = Ok secret ->
     valid_parameters bits p theirPower /\
     secret = theirPower ^ ourExponent mod p).
Proof.
  unfold computeSharedSecret.
  pose proof (checks_spec bits p theirPower) as Hc.
  destruct (is_safe_prime p && (bit_length p =? bits) && (1 <? theirPower)
            && (theirPower <? p - 1)).
  - assert (valid_parameters bits p theirPower) as Hv by (by apply Hc).
    split.
    + split; [discriminate | intros Hno; by destruct Hno].
    + intros secret [= <-]. by split.
  - split.
    + split; [|done]. intros _ Hv. apply Hc in Hv. discriminate Hv.
    + intros secret Hs. discriminate Hs.
Qed.

End DhParameters.

(** ** Runs on concrete inputs *)

(** [-77] is the byte [0x4d] followed by the sign byte. *)
Example serializeAccessHash_negative :
  Sqlite.serializeAccessHash (-77) = [Byte.x4d; Byte.x01].
Proof. reflexivity. Qed.

Example serializeAccessHash_zero :
  Sqlite.serializeAccessHash 0 = [Byte.x00; Byte.x00].
Proof. reflexivity. Qed.

(** A key whose bytes spell [ver] is a blob all the same, and goes. *)
Example reset_key_ver :
  let st := Sqlite.save
              (Sqlite.setAuthKeyFor 2 (Some [Byte.x76; Byte.x65; Byte.x72]) Demo.fresh) in
  Sqlite.getAuthKeyFor 2 st = Some [Byte.x76; Byte.x65; Byte.x72] /\
  Sqlite.getAuthKeyFor 2 (Sqlite.reset st) = None.
Proof. vm_compute. split; reflexivity. Qed.

(** [reset] leaves the pending queue alone: a key set before it and saved
    after it is stored. *)
Example reset_keeps_pending :
  Sqlite.getAuthKeyFor 2
    (Sqlite.calls [Sqlite.SetAuthKeyFor 2 (Some [Byte.x01]); Sqlite.Reset; Sqlite.Save]
                  Demo.fresh)
  = Some [Byte.x01].
Proof. vm_compute. reflexivity. Qed.

(** With only the pts set, the other two places of the triple are [null]. *)
Example updates_state_pts_only :
  Sqlite.getUpdatesState (Sqlite.save (Sqlite.setUpdatesPts 5 Demo.fresh))
  = Some (JSON.Number 5, JSON.Null, JSON.Null).
Proof. vm_compute. reflexivity. Qed.

(** Batches 5 and 6 are applied in turn, batch 9 opens a gap, and batch 7
    is then held back with it. *)
Example on_batch_run :
  let s0 := {| UpdateManager.local_pts := 4;
               UpdateManager.phase := UpdateManager.Normal;
               UpdateManager.stored_pts := 4;
               UpdateManager.delivered := [];
               UpdateManager.buffered := [] |} in
  let batch n := {| UpdateManager.new_pts := n; UpdateManager.updates := [n] |} in
  fold_left UpdateManager.on_batch [batch 5; batch 6; batch 9; batch 7] s0
  = {| UpdateManager.local_pts := 6;
       UpdateManager.phase := UpdateManager.GapDetected;
       UpdateManager.stored_pts := 6;
       UpdateManager.delivered := [5; 6];
       UpdateManager.buffered := [batch 9; batch 7] |}.
Proof. reflexivity. Qed.

(** Three sends while the clock stands still and then goes back. *)
Example sends_run :
  (Session.sends [(Session.Content, 100); (Session.Service, 100); (Session.Content, 90)]
                 Session.fresh).1
  = [ {| Session.msg_id := 100; Session.seqno := 1; Session.kind := Session.Content |};
      {| Session.msg_id := 101; Session.seqno := 2; Session.kind := Session.Service |};
      {| Session.msg_id := 102; Session.seqno := 3; Session.kind := Session.Content |} ].
Proof. reflexivity. Qed.

(** 23 is a safe prime of five bits; 21 is no prime, 29 no safe prime, and
    a power of 1 or of [prime - 1] is refused. *)
Example computeSharedSecret_run :
  Crypto.computeSharedSecret 5 5 23 3 4 = Crypto.Ok 18 /\
  Crypto.computeSharedSecret 5 5 21 3 4 = Crypto.Err Crypto.InvalidDhParameters /\
  Crypto.computeSharedSecret 5 5 29 3 4 = Crypto.Err Crypto.InvalidDhParameters /\
  Crypto.computeSharedSecret 6 5 23 3 4 = Crypto.Err Crypto.InvalidDhParameters /\
  Crypto.computeSharedSecret 5 5 23 3 1 = Crypto.Err Crypto.InvalidDhParameters /\
  Crypto.computeSharedSecret 5 5 23 3 22 = Crypto.Err Crypto.InvalidDhParameters.
Proof. vm_compute. repeat split; reflexivity. Qed.

(** ** The theorems at concrete inputs *)

(** C4 on the row of [alice], of type [user], with id 42 and access hash
    -77, updated at time 1000: looked up one millisecond after the 24
    hours the answer is [null]; at the 24 hours sharp it is her input
    peer.  And on the row of [eve], of type [bot], the lookup throws. *)
Lemma username_lookup_ttl_witness :
  Sqlite.getPeerByUsername "Alice" 86401001 Demo.with_alice
    = (Return None, Demo.with_alice) /\
  (Sqlite.getPeerByUsername "Alice" 86401000 Demo.with_alice).1
    = Return (Some (Tl.inputPeerUser 42 (-77))) /\
  Sqlite.getPeerByUsername "eve" 1001 Demo.with_eve
    = (Throw "Invalid peer type: bot", Demo.with_eve).
Proof.
  split; [|split].
  - apply (proj1 (username_lookup_ttl Demo.with_alice "Alice" 86401001 Demo.alice
                    ltac:(vm_compute; reflexivity))).
    vm_compute. reflexivity.
  - refine (eq_trans
              (proj1 (proj1 (proj2 (username_lookup_ttl Demo.with_alice "Alice"
                                      86401000 Demo.alice _) _) _) _) _).
    + vm_compute. reflexivity.
    + vm_compute. discriminate.
    + exists []. reflexivity.
    + reflexivity.
    + vm_compute. reflexivity.
  - refine (proj1 (proj2 (proj2 (username_lookup_ttl Demo.with_eve "eve" 1001 Demo.eve
                                   _) _)) _).
    + vm_compute. reflexivity.
    + vm_compute. discriminate.
    + intros [E|[E|[E|[]]]]; discriminate E.
Defined.

(** C7 on a fresh storage: no pts set, no state; and the last values set
    before a save, whatever is set after it. *)
Lemma updates_state_roundtrip_witness :
  Sqlite.getUpdatesState
    (Sqlite.calls [Sqlite.SetUpdatesDate 3; Sqlite.Save] Demo.fresh) = None /\
  Sqlite.getUpdatesState
    (Sqlite.calls
       ([Sqlite.SetUpdatesPts 1; Sqlite.SetUpdatesPts 5; Sqlite.SetUpdatesDate 6;
         Sqlite.Save; Sqlite.SetUpdatesSeq 7]
        ++ Sqlite.Save :: [Sqlite.SetUpdatesPts 9]) Demo.fresh)
  = Some (JSON.Number 5, JSON.Number 6, JSON.Number 7).
Proof.
  split.
  - apply (proj1 (updates_state_roundtrip Demo.fresh
                    [Sqlite.SetUpdatesDate 3; Sqlite.Save] [] [] 0 0 0)).
    + split; [vm_compute; reflexivity | constructor].
    + reflexivity.
  - apply (proj2 (updates_state_roundtrip Demo.fresh []
                    [Sqlite.SetUpdatesPts 1; Sqlite.SetUpdatesPts 5;
                     Sqlite.SetUpdatesDate 6; Sqlite.Save; Sqlite.SetUpdatesSeq 7]
                    [Sqlite.SetUpdatesPts 9] 5 6 7)).
    + repeat constructor.
    + repeat constructor.
    + reflexivity.
    + reflexivity.
    + reflexivity.
Defined.

(** C8 on a fresh storage: channel 7 set among others, and channel 7 left
    out. *)
Lemma channel_pts_roundtrip_witness :
  Sqlite.getChannelPts 7
    (Sqlite.save (Sqlite.setManyChannelPts {[7 := 3; 8 := 9]} Demo.fresh)) = Some 3 /\
  Sqlite.getChannelPts 7
    (Sqlite.calls [Sqlite.SetManyChannelPts {[8 := 9]}; Sqlite.Save] Demo.fresh) = None.
Proof.
  split.
  - apply (proj1 (channel_pts_roundtrip Demo.fresh {[7 := 3; 8 := 9]} 7 3 [])).
    vm_compute. reflexivity.
  - apply (proj2 (proj2 (channel_pts_roundtrip Demo.fresh ∅ 7 3
                           [Sqlite.SetManyChannelPts {[8 := 9]}; Sqlite.Save]))).
    + split; [vm_compute; reflexivity | constructor].
    + repeat constructor.
Defined.

(** C10 on a storage that holds a key for data centre 2: a new key set and
    other values set after it do not show before the save. *)
Lemma writes_buffered_until_save_witness :
  let st := Sqlite.save (Sqlite.setAuthKeyFor 2 (Some [Byte.x01]) Demo.fresh) in
  Sqlite.getAuthKeyFor 2
    (Sqlite.calls [Sqlite.SetUpdatesPts 5; Sqlite.SetAuthKeyFor 2 None]
                  (Sqlite.setAuthKeyFor 2 (Some [Byte.x02]) st))
  = Some [Byte.x01].
Proof.
  intros st.
  rewrite (proj1 (proj2 (writes_buffered_until_save st 2 2 (Some [Byte.x02])
                           [Sqlite.SetUpdatesPts 5; Sqlite.SetAuthKeyFor 2 None]))).
  - vm_compute. reflexivity.
  - repeat constructor.
Defined.


(** C3 on the safe prime 23: the exchange succeeds, so the parameters were
    valid. *)
Lemma dh_parameters_checked_witness :
  Crypto.valid_parameters 5 23 4 /\ 18 = 4 ^ 3 mod 23.
Proof.
  apply (proj2 (dh_parameters_checked 5 5 23 3 4) 18).
  vm_compute. reflexivity.
Defined.

(* ===================================================================== *)
(** * Part III: further properties of the storage *)
(* ===================================================================== *)

(** ** The bytes of an access hash *)

Section AccessHashBytes.

(** The round trip of access hashes, for use below. *)
Lemma parse_serialize (h : Tl.Long) :
  Sqlite.parseAccessHash (Sqlite.serializeAccessHash h) = h.
Proof.
  unfold Sqlite.parseAccessHash, Sqlite.serializeAccessHash, BigInteger.toArray.
  cbn [BigInteger.value BigInteger.isNegative].
  set (neg := (h <? 0) && (0 <? 256)).
  set (n := if neg then Z.abs h else h).
  assert (0 <= n) as Hn.
  { subst n neg. destruct (Z.ltb_spec h 0); cbn; lia. }
  rewrite data_from.
  2:{ apply Forall_app; split.
      - apply Forall_rev. apply toBase_loop_digits; [lia|lia|constructor].
      - constructor; [destruct neg; lia|constructor]. }
  rewrite slice_last.
  unfold Sqlite.last_truthy. rewrite last_snoc.
  unfold BigInteger.fromArray, BigInteger.parseBaseFromArray.
  rewrite rev_involutive, parse_toBase by assumption.
  subst n neg. destruct (Z.ltb_spec h 0); cbn; lia.
Qed.

Lemma parse_step_fold base l v p :
  fst (fold_left (BigInteger.parse_step base) l (v, p))
  = v + p * fold_right (fun d acc => d + base * acc) 0 l.
Proof.
  revert v p. induction l as [|d l IH]; intros v p; cbn [fold_left fold_right].
  - cbn. lia.
  - unfold BigInteger.parse_step at 2. cbn [fst snd]. rewrite IH. lia.
Qed.

Lemma big_endian_rev ds :
  Reading.big_endian ds = fold_right (fun d acc => d + 256 * acc) 0 (rev ds).
Proof.
  unfold Reading.big_endian. rewrite fold_left_rev_right.
  assert (forall a, fold_left (fun acc d => acc * 256 + d) ds a
                    = fold_left (fun x y => y + 256 * x) ds a) as Hgen; [|apply Hgen].
  induction ds as [|d ds IH]; intros a; cbn; [reflexivity|].
  rewrite IH. f_equal. lia.
Qed.

Lemma data_app b1 b2 : Buffer.data (b1 ++ b2) = Buffer.data b1 ++ Buffer.data b2.
Proof. unfold Buffer.data. apply map_app. Qed.

(** X1. [parseAccessHash] reads all bytes but the last as a base-256 number,
    most significant byte first, and negates it when the last byte is not
    zero; a buffer of fewer than two bytes is read as 0. *)
Theorem parseAccessHash_value (digits : Buffer.t) (s : Byte.byte) :
  Sqlite.parseAccessHash (digits ++ [s])
    = Reading.sign_of s * Reading.big_endian (Buffer.data digits) /\
  Sqlite.parseAccessHash [] = 0 /\
  Sqlite.parseAccessHash [s] = 0.
Proof.
  assert (forall ds, Sqlite.parseAccessHash (ds ++ [s])
            = Reading.sign_of s * Reading.big_endian (Buffer.data ds)) as Hgen.
  { intros ds. unfold Sqlite.parseAccessHash.
    rewrite data_app. cbn [Buffer.data map].
    rewrite slice_last. unfold Sqlite.last_truthy. rewrite last_snoc.
    unfold BigInteger.fromArray, BigInteger.parseBaseFromArray, Reading.sign_of.
    rewrite parse_step_fold, big_endian_rev.
    destruct (Buffer.octet s =? 0); cbn [negb]; lia. }
  split; [apply Hgen|]. split; [reflexivity|].
  change [s] with ([] ++ [s]). rewrite (Hgen []). cbn. unfold Reading.sign_of.
  destruct (Buffer.octet s =? 0); reflexivity.
Qed.

Lemma toBase_loop_length (k : nat) n out :
  0 <= n < 256 ^ Z.of_nat (S k) ->
  (length out < length (BigInteger.toBase_loop 256 n out) <= length out + S k)%nat.
Proof.
  revert n out. induction k as [|k IH]; intros n out Hn;
    rewrite toBase_loop_unfold;
    destruct (decide (2 <= 256 /\ 256 <= n)) as [[_ Hle]|Hno].
  - change (256 ^ Z.of_nat 1) with 256 in Hn. lia.
  - rewrite length_app. cbn. lia.
  - assert (0 <= n ÷ 256 < 256 ^ Z.of_nat (S k)) as Hq.
    { replace (Z.of_nat (S (S k))) with (Z.succ (Z.of_nat (S k))) in Hn by lia.
      rewrite Z.pow_succ_r in Hn by lia.
      rewrite Z.quot_div_nonneg by lia.
      split; [apply Z.div_pos; lia | apply Z.div_lt_upper_bound; lia]. }
    specialize (IH (n ÷ 256) (out ++ [Z.rem n 256]) Hq).
    rewrite length_app in IH. cbn in IH. lia.
  - rewrite length_app. cbn. lia.
Qed.

(** X2. The serialised form of a 64-bit access hash has between 2 and 9
    bytes; its last byte is the sign, 1 for a negative hash and 0 otherwise
    (for every hash, of any size). *)
Theorem serializeAccessHash_shape (h : Tl.Long) :
  last (Sqlite.serializeAccessHash h)
    = Some (if h <? 0 then Byte.x01 else Byte.x00) /\
  (- 2 ^ 63 <= h < 2 ^ 63 ->
   (2 <= length (Sqlite.serializeAccessHash h) <= 9)%nat).
Proof.
  unfold Sqlite.serializeAccessHash, BigInteger.toArray. cbn [BigInteger.value BigInteger.isNegative].
  unfold Buffer.from. rewrite map_app. cbn [map]. split.
  - rewrite last_snoc. by destruct (h <? 0).
  - intros Hh. rewrite length_app, length_map, length_rev. cbn [length].
    set (n := if (h <? 0) && (0 <? 256) then Z.abs h else h).
    assert (0 <= n < 256 ^ Z.of_nat 8) as Hn.
    { subst n. change (256 ^ Z.of_nat 8) with (2 ^ 64).
      destruct (Z.ltb_spec h 0); cbn; lia. }
    pose proof (toBase_loop_length 7 n [] Hn) as Hlen. cbn [length] in Hlen. lia.
Qed.

(** X3. Different access hashes have different serialised forms. *)
Theorem serializeAccessHash_injective (h1 h2 : Tl.Long) :
  Sqlite.serializeAccessHash h1 = Sqlite.serializeAccessHash h2 -> h1 = h2.
Proof.
  intros E. rewrite <- (parse_serialize h1), <- (parse_serialize h2).
  by rewrite E.
Qed.

End AccessHashBytes.

(** X2 at the least 64-bit hash: eight digit bytes and the sign byte. *)
Lemma serializeAccessHash_shape_witness :
  (2 <= length (Sqlite.serializeAccessHash (- 2 ^ 63)) <= 9)%nat.
Proof.
  apply (proj2 (serializeAccessHash_shape (- 2 ^ 63))). lia.
Defined.

(** X3 at two hashes with the same bytes. *)
Lemma serializeAccessHash_injective_witness : 3 - 80 = -77.
Proof.
  apply (serializeAccessHash_injective (3 - 80) (-77)). reflexivity.
Defined.

(** ** Input peers *)

Section InputPeers.

Import Sqlite.
Context `{Core}.

Lemma getInputPeer_same (p : PeerInfo.t) (row : SqliteEntity.t) :
  SqliteEntity.id row = PeerInfo.id p ->
  SqliteEntity.type row = PeerInfo.type p ->
  SqliteEntity.hash row = serializeAccessHash (PeerInfo.accessHash p) ->
  getInputPeer (inl row) = getInputPeer (inr p).
Proof.
  intros Hid Htype Hhash. unfold getInputPeer.
  by rewrite Hid, Htype, Hhash, parse_serialize.
Qed.

(** X4. [getInputPeer] returns an input peer for the types [user], [chat]
    and [channel], and for every other type throws
    [Invalid peer type: <type>]. *)
Theorem getInputPeer_types (row : SqliteEntity.t + PeerInfo.t) :
  (In (Reading.row_type row) Reading.peer_types ->
   exists peer, getInputPeer row = Return peer) /\
  (~ In (Reading.row_type row) Reading.peer_types ->
   getInputPeer row = Throw ("Invalid peer type: " +:+ Reading.row_type row)).
Proof.
  unfold getInputPeer, Reading.peer_types.
  fold (Reading.row_type row).
  destruct (String.eqb_spec (Reading.row_type row) "user") as [->|Hu];
    [split; [eauto | intros Hn; exfalso; apply Hn; by left]|].
  destruct (String.eqb_spec (Reading.row_type row) "chat") as [->|Hc];
    [split; [eauto | intros Hn; exfalso; apply Hn; right; by left]|].
  destruct (String.eqb_spec (Reading.row_type row) "channel") as [->|Hh];
    [split; [eauto | intros Hn; exfalso; apply Hn; right; right; by left]|].
  split; [|reflexivity].
  intros [E|[E|[E|[]]]]; by rewrite <- E in *.
Qed.

(** X5. The input peer built from an entity row equals the one built from
    the peer information the row was written from: same id, same type, and
    as hash the serialised access hash. *)
Theorem getInputPeer_row_of_peer (p : PeerInfo.t) (row : SqliteEntity.t) :
  SqliteEntity.id row = PeerInfo.id p ->
  SqliteEntity.type row = PeerInfo.type p ->
  SqliteEntity.hash row = serializeAccessHash (PeerInfo.accessHash p) ->
  getInputPeer (inl row) = getInputPeer (inr p).
Proof. apply getInputPeer_same. Qed.

End InputPeers.

(** X4 on a row of an unknown type and on the row of [alice]. *)
Lemma getInputPeer_types_witness :
  (exists peer, Sqlite.getInputPeer (inl Demo.alice) = Return peer) /\
  Sqlite.getInputPeer
    (inr {| Sqlite.PeerInfo.id := 1; Sqlite.PeerInfo.accessHash := 2;
            Sqlite.PeerInfo.type := "bot" |})
  = Throw "Invalid peer type: bot".
Proof.
  split.
  - apply (proj1 (getInputPeer_types (inl Demo.alice))). left. reflexivity.
  - apply (proj2 (getInputPeer_types
                    (inr {| Sqlite.PeerInfo.id := 1; Sqlite.PeerInfo.accessHash := 2;
                            Sqlite.PeerInfo.type := "bot" |}))).
    intros [E|[E|[E|[]]]]; discriminate E.
Defined.

(** X5 on the row of [alice]. *)
Lemma getInputPeer_row_of_peer_witness :
  Sqlite.getInputPeer (inl Demo.alice)
  = Sqlite.getInputPeer
      (inr {| Sqlite.PeerInfo.id := 42; Sqlite.PeerInfo.accessHash := -77;
              Sqlite.PeerInfo.type := "user" |}).
Proof.
  apply (getInputPeer_row_of_peer
           {| Sqlite.PeerInfo.id := 42; Sqlite.PeerInfo.accessHash := -77;
              Sqlite.PeerInfo.type := "user" |} Demo.alice); reflexivity.
Defined.

(** ** The key-value table *)

Section KeyValue.

Import Sqlite.
Context `{Core}.

Implicit Types (st : SqliteStorage).

Lemma getFromKv_save_setToKv key value st :
  JSON.parse (JSON.stringify value) = value ->
  _getFromKv key (save (_setToKv key value false st)) = value.
Proof.
  intros Hv. unfold _getFromKv, getKv.
  rewrite db_save, flushed_setToKv.
  destruct value; cbn [JSON.is_null run kv];
    rewrite ?lookup_delete_eq, ?lookup_insert_eq; [reflexivity | exact Hv | exact Hv].
Qed.

(** X6. A value that survives [JSON.stringify] and [JSON.parse] is read back
    as it was set, once saved: [getSelf] after [setSelf], [getDefaultDc]
    after [setDefaultDc].  In particular setting [null] removes the row, and
    the getter answers [null]. *)
Theorem kv_set_get (st : SqliteStorage) (v : JSON.value) :
  JSON.parse (JSON.stringify v) = v ->
  getSelf (save (setSelf v st)) = v /\
  getDefaultDc (save (setDefaultDc v st)) = v /\
  (kv (_db (save (setSelf JSON.Null st))) !! "self" = None /\
   getSelf (save (setSelf JSON.Null st)) = JSON.Null).
Proof.
  intros Hv. split; [|split; [|split]].
  - by apply getFromKv_save_setToKv.
  - by apply getFromKv_save_setToKv.
  - unfold setSelf. rewrite db_save, flushed_setToKv. cbn. apply lookup_delete_eq.
  - by apply getFromKv_save_setToKv.
Qed.

Lemma flushed_kv_setter c k st :
  Reading.kv_key c = Some k ->
  exists w, writes_kv k w = true /\
            (forall key, key <> k -> writes_kv key w = false) /\
            auth_keys (run w (flushed st)) = auth_keys (flushed st) /\
            pts (run w (flushed st)) = pts (flushed st) /\
            entities (run w (flushed st)) = entities (flushed st) /\
            flushed (call c st) = run w (flushed st).
Proof.
  intros Hk.
  destruct c; try discriminate Hk; injection Hk as <-; cbn [call];
    unfold setDefaultDc, setSelf, setCommonPts, setUpdatesPts, setUpdatesDate,
      setUpdatesSeq;
    rewrite flushed_setToKv; cbn [JSON.is_null];
    try match goal with
        | |- context [JSON.is_null ?v] => destruct (JSON.is_null v)
        end;
    eexists; (split; [|split; [|split; [|split; [|split]]]]);
    try reflexivity;
    try (cbn; by apply bool_decide_eq_true);
    try (intros key Hne; cbn; apply bool_decide_eq_false; congruence).
  all: reflexivity.
Qed.

(** X7. A setter of the key-value table writes its own key only: after the
    save, every other key reads as it would without the call, and so do the
    authorisation keys and the channel counters. *)
Theorem kv_setter_frame (st : SqliteStorage) (c : Call) (k key : string) (n : Z) :
  Reading.kv_key c = Some k ->
  key <> k ->
  _getFromKv key (save (call c st)) = _getFromKv key (save st) /\
  getAuthKeyFor n (save (call c st)) = getAuthKeyFor n (save st) /\
  getChannelPts n (save (call c st)) = getChannelPts n (save st).
Proof.
  intros Hk Hne.
  destruct (flushed_kv_setter c k st Hk) as (w & _ & Hother & Ha & Hp & _ & Hf).
  unfold _getFromKv, getKv, getAuthKeyFor, getAuth, getChannelPts, getPts.
  rewrite !db_save, Hf, Ha, Hp.
  by rewrite (run_kv_other key w _ (Hother key Hne)).
Qed.

End KeyValue.

(** X6 on a number, and on a document kept as text. *)
Lemma kv_set_get_witness :
  Sqlite.getSelf (Sqlite.save (Sqlite.setSelf (JSON.Number 7) Demo.fresh)) = JSON.Number 7 /\
  Sqlite.getDefaultDc (Sqlite.save (Sqlite.setDefaultDc (JSON.Other "[2,4]") Demo.fresh))
  = JSON.Other "[2,4]".
Proof.
  split.
  - apply (proj1 (kv_set_get Demo.fresh (JSON.Number 7) ltac:(vm_compute; reflexivity))).
  - apply (proj1 (proj2 (kv_set_get Demo.fresh (JSON.Other "[2,4]")
                           ltac:(vm_compute; reflexivity)))).
Defined.

(** X7: setting the date leaves the pts of the updates state alone. *)
Lemma kv_setter_frame_witness :
  let st := Sqlite.save (Sqlite.setUpdatesPts 5 Demo.fresh) in
  Sqlite._getFromKv "pts" (Sqlite.save (Sqlite.call (Sqlite.SetUpdatesDate 9) st))
  = Sqlite._getFromKv "pts" (Sqlite.save st).
Proof.
  intros st.
  apply (proj1 (kv_setter_frame st (Sqlite.SetUpdatesDate 9) "date" "pts" 0
                  eq_refl ltac:(discriminate))).
Defined.

(** ** Saving, resetting and loading *)

Section SaveResetLoad.

Import Sqlite.
Context `{Core}.

Implicit Types (st : SqliteStorage).

Lemma flushed_setManyChannelPts_db values st :
  flushed (setManyChannelPts values st)
  = _runMany (map (fun e => setPts e.1 e.2) (map_to_list values)) (flushed st).
Proof.
  unfold flushed.
  destruct (setManyChannelPts_pending values st) as [-> ->].
  apply _runMany_app.
Qed.

(** What a call (other than [reset]) does to the database that the next save
    leaves depends on that database only. *)
Lemma flushed_call_congr c st st' :
  is_Reset c = false -> flushed st = flushed st' ->
  flushed (call c st) = flushed (call c st').
Proof.
  intros Hc E. destruct c; try discriminate Hc; cbn [call];
    unfold setDefaultDc, setSelf, setCommonPts, setUpdatesPts, setUpdatesDate,
      setUpdatesSeq, setAuthKeyFor;
    rewrite ?flushed_save, ?flushed_setToKv, ?flushed_push,
      ?flushed_setManyChannelPts_db, ?flushed_getPeerByUsername;
    by rewrite E.
Qed.

Lemma flushed_calls_without_saves cs st st' :
  Forall (fun c => is_Reset c = false) cs ->
  flushed st = flushed st' ->
  flushed (calls cs st)
  = flushed (calls (List.filter (fun c => negb (is_Save c)) cs) st').
Proof.
  intros Hcs. revert st st'.
  induction Hcs as [|c cs Hc _ IH]; intros st st' E; [exact E|].
  change (calls (c :: cs) st) with (calls cs (call c st)).
  cbn [List.filter].
  destruct (is_Save c) eqn:Hs; cbn [negb].
  - apply IH. destruct c; try discriminate Hs. cbn [call]. by rewrite flushed_save.
  - change (calls (c :: ?l) st') with (calls l (call c st')).
    apply IH. by apply flushed_call_congr.
Qed.

(** X8. When [save()] is called between other calls does not matter for
    what the last [save()] leaves in the database: a sequence of calls
    without [reset], saved at the end, gives the same database with its
    intermediate saves taken out.  Saving twice is saving once. *)
Theorem save_batching (st : SqliteStorage) (cs : list Call) :
  Forall (fun c => is_Reset c = false) cs ->
  _db (save (calls cs st))
    = _db (save (calls (List.filter (fun c => negb (is_Save c)) cs) st)) /\
  save (save st) = save st.
Proof.
  intros Hcs. split.
  - rewrite !db_save. by apply flushed_calls_without_saves.
  - unfold save at 1. by rewrite pending_save.
Qed.

Lemma getUpdatesState_kv st st' :
  kv (_db st) = kv (_db st') -> getUpdatesState st = getUpdatesState st'.
Proof.
  intros E. unfold getUpdatesState, _getFromKv, getKv. by rewrite E.
Qed.

(** X9. Setting (or deleting) the key of one data centre leaves, after the
    save, the keys of all other data centres, the updates state and the
    channel counters as they would be without the call. *)
Theorem auth_key_frame (st : SqliteStorage) (dc dc' : Z) (key : option Buffer.t)
        (cid : Z) :
  dc <> dc' ->
  getAuthKeyFor dc' (save (setAuthKeyFor dc key st)) = getAuthKeyFor dc' (save st) /\
  getUpdatesState (save (setAuthKeyFor dc key st)) = getUpdatesState (save st) /\
  getChannelPts cid (save (setAuthKeyFor dc key st)) = getChannelPts cid (save st).
Proof.
  intros Hne. unfold getAuthKeyFor, getAuth, getChannelPts, getPts, setAuthKeyFor.
  split; [|split].
  - rewrite !db_save, flushed_push.
    destruct key; cbn; [by rewrite lookup_insert_ne | by rewrite lookup_delete_ne].
  - apply getUpdatesState_kv. rewrite !db_save, flushed_push. by destruct key.
  - rewrite !db_save, flushed_push. by destruct key.
Qed.

Lemma getEntByUser_no_rows username db :
  entities db = ∅ -> getEntByUser username db = None.
Proof. unfold getEntByUser. intros ->. by rewrite map_to_list_empty. Qed.

(** X10. [reset()] empties the whole database, its version row included:
    afterwards every key of [kv] reads [null], there is no updates state,
    no channel counter and no peer under any username.  It leaves the
    pending queue and the entity cache as they are. *)
Theorem reset_wipes (st : SqliteStorage) (key username : string) (cid now : Z) :
  _getFromKv key (reset st) = JSON.Null /\
  _getFromKv "ver" (reset st) = JSON.Null /\
  getUpdatesState (reset st) = None /\
  getChannelPts cid (reset st) = None /\
  getPeerByUsername username now (reset st) = (Return None, reset st) /\
  _pending (reset st) = _pending st /\
  _cache (reset st) = _cache st.
Proof.
  repeat split.
Qed.

(** X11. [reset()] does not empty the pending queue: a key, a pts or a
    channel counter that was set but not yet saved when [reset()] ran is
    written by the next [save()]. *)
Theorem reset_keeps_pending_writes (st : SqliteStorage) (dc : Z) (key : Buffer.t)
        (cid v p : Z) :
  getAuthKeyFor dc (save (reset (setAuthKeyFor dc (Some key) st))) = Some key /\
  getChannelPts cid (save (reset (setManyChannelPts {[cid := v]} st))) = Some v /\
  _getFromKv "pts" (save (reset (setUpdatesPts p st))) = JSON.Number p.
Proof.
  split; [|split].
  - unfold getAuthKeyFor, getAuth. rewrite db_save. unfold flushed.
    cbn [reset with_db setAuthKeyFor push _pending _db].
    rewrite _runMany_snoc. cbn. apply lookup_insert_eq.
  - unfold getChannelPts, getPts. rewrite db_save. unfold flushed.
    cbn [reset with_db _pending _db].
    destruct (setManyChannelPts_pending {[cid := v]} st) as [-> _].
    rewrite _runMany_app. apply _runMany_setPts.
    + apply NoDup_fst_map_to_list.
    + apply elem_of_map_to_list. apply lookup_singleton_eq.
  - unfold _getFromKv, getKv. rewrite db_save. unfold flushed.
    cbn [reset with_db setUpdatesPts _setToKv JSON.is_null push _pending _db].
    rewrite _runMany_snoc. cbn [run kv]. rewrite lookup_insert_eq.
    apply parse_stringify_number.
Qed.

Lemma load_db (file : Database) st :
  _db (load (Some file) st)
  = (if lt_number (match kv file !! "ver" with
                   | Some t => JSON.parse t
                   | None => JSON.Null
                   end) 1
     then run (setKv "ver" "1") file else file) /\
  _pending (load (Some file) st) = _pending st.
Proof.
  unfold load, _initialize, _getFromKv, getKv. cbn [with_db _db].
  destruct (lt_number _ CURRENT_VERSION) eqn:E; unfold CURRENT_VERSION in E;
    rewrite E; split; reflexivity.
Qed.

(** X12. [load()] on a file that has its tables keeps every authorisation
    key, channel counter, entity and every key of [kv] but [ver]; the
    version it leaves is 1 when the file had none, and the greater of 1 and
    the stored number otherwise.  On a new file all tables are empty but for
    the version, 1.  The pending queue is not touched. *)
Theorem load_version (file : Database) (st : SqliteStorage) (key : string) (n : Z) :
  auth_keys (_db (load (Some file) st)) = auth_keys file /\
  pts (_db (load (Some file) st)) = pts file /\
  entities (_db (load (Some file) st)) = entities file /\
  (key <> "ver" -> kv (_db (load (Some file) st)) !! key = kv file !! key) /\
  (kv file !! "ver" = None ->
   _getFromKv "ver" (load (Some file) st) = JSON.Number 1) /\
  (kv file !! "ver" = Some (JSON.stringify_number n) ->
   _getFromKv "ver" (load (Some file) st) = JSON.Number (Z.max n 1)) /\
  _db (load None st) = run (setKv "ver" "1") SCHEMA /\
  _getFromKv "ver" (load None st) = JSON.Number 1 /\
  _pending (load (Some file) st) = _pending st /\
  _pending (load None st) = _pending st.
Proof.
  destruct (load_db file st) as [Hdb Hpend].
  unfold _getFromKv, getKv. rewrite Hdb, Hpend.
  split; [|split; [|split; [|split; [|split; [|split]]]]].
  - by destruct (lt_number _ 1).
  - by destruct (lt_number _ 1).
  - by destruct (lt_number _ 1).
  - intros Hne. destruct (lt_number _ 1); [|done].
    cbn. by rewrite lookup_insert_ne.
  - intros ->. cbn. by rewrite lookup_insert_eq.
  - intros Hv. rewrite Hv.
    change (JSON.stringify_number n) with (JSON.stringify (JSON.Number n)) in *.
    rewrite parse_stringify_number. cbn [lt_number].
    destruct (Z.ltb_spec n 1).
    + cbn. rewrite lookup_insert_eq.
      change (JSON.parse "1") with (JSON.Number 1). f_equal. lia.
    + rewrite Hv, parse_stringify_number. f_equal. lia.
  - repeat split.
Qed.

(** X13. With the pts saved and neither date nor seq ever set,
    [getUpdatesState] returns the pts with [null] in the other two places;
    a pts of 0 is a state like any other. *)
Theorem updates_state_pts_alone (st : SqliteStorage) (p : Z) :
  kv_unset "date" st -> kv_unset "seq" st ->
  getUpdatesState (save (setUpdatesPts p st))
  = Some (JSON.Number p, JSON.Null, JSON.Null).
Proof.
  intros [Hd Hdp] [Hs Hsp].
  unfold getUpdatesState, _getFromKv, getKv, setUpdatesPts.
  rewrite !db_save, flushed_setToKv. cbn [JSON.is_null run kv].
  rewrite lookup_insert_eq, !lookup_insert_ne by discriminate.
  unfold flushed. rewrite !_runMany_kv_other by assumption.
  rewrite Hd, Hs.
  change (JSON.stringify (JSON.Number p)) with (JSON.stringify (JSON.Number p)).
  by rewrite parse_stringify_number.
Qed.

(** X14. After [setManyChannelPts(values)] and a save, a channel of
    [values] has the counter given there and every other channel the
    counter it would have without the call; authorisation keys are not
    touched, and an empty object changes nothing at all. *)
Theorem setManyChannelPts_lookup (st : SqliteStorage) (values : gmap Z Z) (cid dc : Z) :
  getChannelPts cid (save (setManyChannelPts values st))
    = match values !! cid with
      | Some v => Some v
      | None => getChannelPts cid (save st)
      end /\
  getAuthKeyFor dc (save (setManyChannelPts values st)) = getAuthKeyFor dc (save st) /\
  setManyChannelPts ∅ st = st.
Proof.
  unfold getChannelPts, getPts, getAuthKeyFor, getAuth.
  rewrite !db_save, flushed_setManyChannelPts_db.
  split; [|split].
  - destruct (values !! cid) as [v|] eqn:Hv.
    + apply _runMany_setPts; [apply NoDup_fst_map_to_list | by apply elem_of_map_to_list].
    + apply _runMany_pts_other. apply Forall_forall. intros w Hw.
      apply list_elem_of_In, in_map_iff in Hw as ([c' p'] & <- & Hin').
      cbn. apply bool_decide_eq_false. intros ->.
      apply list_elem_of_In, elem_of_map_to_list in Hin'. congruence.
  - generalize (map_to_list values) as l. intros l. generalize (flushed st) as db.
    induction l as [|e l IH]; intros db; [reflexivity|].
    cbn [map]. change (_runMany (?w :: ?ws) db) with (_runMany ws (run w db)).
    by rewrite IH.
  - unfold setManyChannelPts. by rewrite map_to_list_empty.
Qed.

End SaveResetLoad.

(** X8 on a sequence with two saves in it. *)
Lemma save_batching_witness :
  Sqlite._db (Sqlite.save (Sqlite.calls
     [Sqlite.SetUpdatesPts 1; Sqlite.Save; Sqlite.SetAuthKeyFor 2 (Some [Byte.x01]);
      Sqlite.Save; Sqlite.SetUpdatesPts 3] Demo.fresh))
  = Sqlite._db (Sqlite.save (Sqlite.calls
     [Sqlite.SetUpdatesPts 1; Sqlite.SetAuthKeyFor 2 (Some [Byte.x01]);
      Sqlite.SetUpdatesPts 3] Demo.fresh)).
Proof.
  apply (proj1 (save_batching Demo.fresh
     [Sqlite.SetUpdatesPts 1; Sqlite.Save; Sqlite.SetAuthKeyFor 2 (Some [Byte.x01]);
      Sqlite.Save; Sqlite.SetUpdatesPts 3] ltac:(repeat constructor))).
Defined.

(** X9 on data centres 1 and 2. *)
Lemma auth_key_frame_witness :
  let st := Sqlite.setAuthKeyFor 2 (Some [Byte.x02]) Demo.fresh in
  Sqlite.getAuthKeyFor 2 (Sqlite.save (Sqlite.setAuthKeyFor 1 (Some [Byte.x01]) st))
  = Sqlite.getAuthKeyFor 2 (Sqlite.save st).
Proof.
  intros st.
  apply (proj1 (auth_key_frame st 1 2 (Some [Byte.x01]) 0 ltac:(discriminate))).
Defined.

(** X12 on a file without version and on a file of version 3. *)
Lemma load_version_witness :
  Sqlite._getFromKv "ver" (Sqlite.load (Some Sqlite.SCHEMA) Demo.fresh) = JSON.Number 1 /\
  Sqlite._getFromKv "ver"
    (Sqlite.load (Some (Sqlite.run (Sqlite.setKv "ver" "3") Sqlite.SCHEMA)) Demo.fresh)
  = JSON.Number 3.
Proof.
  split.
  - apply (proj1 (proj2 (proj2 (proj2 (proj2
             (load_version Sqlite.SCHEMA Demo.fresh "ver" 0)))))).
    reflexivity.
  - apply (proj1 (proj2 (proj2 (proj2 (proj2 (proj2
             (load_version (Sqlite.run (Sqlite.setKv "ver" "3") Sqlite.SCHEMA)
                           Demo.fresh "ver" 3))))))).
    vm_compute. reflexivity.
Defined.

(** X13 on a fresh storage, with a pts of 0. *)
Lemma updates_state_pts_alone_witness :
  Sqlite.getUpdatesState (Sqlite.save (Sqlite.setUpdatesPts 0 Demo.fresh))
  = Some (JSON.Number 0, JSON.Null, JSON.Null).
Proof.
  apply (updates_state_pts_alone Demo.fresh 0);
    (split; [vm_compute; reflexivity | constructor]).
Defined.

(** ** More on the lookup by username *)

Section UsernameMore.

Import Sqlite.
Context `{Core}.

Implicit Types (st : SqliteStorage).

Lemma first_row_None rows : first_row rows = None -> rows = [].
Proof.
  destruct rows as [|r rows]; [done|]. cbn.
  destruct (first_row rows); [destruct (_ <? _)|]; discriminate.
Qed.

Lemma getEntByUser_absent username db :
  (forall k row, entities db !! k = Some row ->
                 SqliteEntity.username row <> Some username) ->
  getEntByUser username db = None.
Proof.
  intros Hno. unfold getEntByUser.
  destruct (first_row _) as [row|] eqn:E; [|reflexivity].
  apply getEntByUser_stored in E as [Hname [k Hk]].
  by destruct (Hno k row Hk).
Qed.

Lemma lower_idem c : lower (lower c) = lower c.
Proof.
  destruct c as [[] [] [] [] [] [] [] []]; reflexivity.
Qed.

Lemma toLowerCase_idem s : toLowerCase (toLowerCase s) = toLowerCase s.
Proof.
  induction s as [|c s IH]; cbn; [reflexivity|]. by rewrite lower_idem, IH.
Qed.

(** X15. Whatever [getPeerByUsername] returns comes from the table: a peer
    is returned only if some stored row carries the lower-cased username,
    was updated at most 86400000 ms before [now], has a serialised entity
    the reader decodes, and gives that peer through [getInputPeer]. *)
Theorem getPeerByUsername_sound (st : SqliteStorage) (username : string) (now : Z)
        (p : Tl.TypeInputPeer) :
  (getPeerByUsername username now st).1 = Return (Some p) ->
  exists k row,
    entities (_db st) !! k = Some row /\
    SqliteEntity.username row = Some (toLowerCase username) /\
    now - SqliteEntity.updated row <= 86400000 /\
    is_Some (_readFullPeer (SqliteEntity.full row)) /\
    getInputPeer (inl row) = Return p.
Proof.
  unfold getPeerByUsername, USERNAME_TTL.
  destruct (getEntByUser _ _) as [row|] eqn:Hrow; [|discriminate].
  apply getEntByUser_stored in Hrow as [Hname [k Hk]].
  destruct (Z.gtb_spec (now - SqliteEntity.updated row) 86400000); [discriminate|].
  destruct (getInputPeer (inl row)) as [peer|msg] eqn:Hpeer; [|discriminate].
  destruct (_readFullPeer _) as [full|] eqn:Hfull; [|discriminate].
  cbn. intros [= ->]. exists k, row. repeat split; try done; lia.
Qed.

(** X16. When no stored row carries the lower-cased username,
    [getPeerByUsername] returns [null] and leaves the storage object as it
    is. *)
Theorem getPeerByUsername_absent (st : SqliteStorage) (username : string) (now : Z) :
  (forall k row, entities (_db st) !! k = Some row ->
                 SqliteEntity.username row <> Some (toLowerCase username)) ->
  getPeerByUsername username now st = (Return None, st).
Proof.
  intros Hno. unfold getPeerByUsername. by rewrite getEntByUser_absent.
Qed.

(** X17. [getPeerByUsername] never writes to the database nor to the
    pending queue.  The storage object changes only when a peer is returned
    and the cache is enabled, and then by one [set] of the cache, with an
    item that holds the returned peer. *)
Theorem getPeerByUsername_effects (st : SqliteStorage) (username : string) (now : Z) :
  _db (getPeerByUsername username now st).2 = _db st /\
  _pending (getPeerByUsername username now st).2 = _pending st /\
  (_cache st = None -> (getPeerByUsername username now st).2 = st) /\
  ((forall p, (getPeerByUsername username now st).1 <> Return (Some p)) ->
   (getPeerByUsername username now st).2 = st) /\
  (forall cache p,
     _cache st = Some cache ->
     (getPeerByUsername username now st).1 = Return (Some p) ->
     exists id item,
       peer item = p /\
       _cache (getPeerByUsername username now st).2 = Some (LruMap_set id item cache)).
Proof.
  split; [apply getPeerByUsername_db|]. split; [apply getPeerByUsername_db|].
  unfold getPeerByUsername.
  destruct (getEntByUser _ _) as [row|]; [|by repeat split].
  destruct (_ >? _); [by repeat split|].
  destruct (getInputPeer _) as [peer|msg]; [|by repeat split].
  destruct (_readFullPeer _) as [full|]; [|by repeat split].
  cbn. unfold _addToCache. split; [|split].
  - by intros ->.
  - intros Hno. by destruct (Hno peer).
  - intros cache p -> [= ->]. eexists _, _. split; [|reflexivity]. reflexivity.
Qed.

(** X18. The lookup does not depend on the case of its argument, and a row
    whose stored username is not in lower case is found under no
    argument. *)
Theorem getPeerByUsername_case (st : SqliteStorage) (username : string) (now : Z)
        (row : SqliteEntity.t) (name : string) :
  getPeerByUsername (toLowerCase username) now st = getPeerByUsername username now st /\
  (SqliteEntity.username row = Some name -> toLowerCase name <> name ->
   getEntByUser (toLowerCase username) (_db st) <> Some row).
Proof.
  split.
  - unfold getPeerByUsername. by rewrite toLowerCase_idem.
  - intros Hname Hcap Hrow.
    apply getEntByUser_stored in Hrow as [Hn _].
    rewrite Hname in Hn. injection Hn as ->.
    apply Hcap. apply toLowerCase_idem.
Qed.

End UsernameMore.

(** X15 on the row of [alice]. *)
Lemma getPeerByUsername_sound_witness :
  exists k row,
    Sqlite.entities (Sqlite._db Demo.with_alice) !! k = Some row /\
    SqliteEntity.username row = Some (Sqlite.toLowerCase "ALICE") /\
    86401000 - SqliteEntity.updated row <= 86400000 /\
    is_Some (Sqlite._readFullPeer (SqliteEntity.full row)) /\
    Sqlite.getInputPeer (inl row) = Return (Tl.inputPeerUser 42 (-77)).
Proof.
  apply (getPeerByUsername_sound Demo.with_alice "ALICE" 86401000).
  vm_compute. reflexivity.
Defined.

(** X16 on a fresh storage, which has no entity. *)
Lemma getPeerByUsername_absent_witness :
  Sqlite.getPeerByUsername "alice" 5 Demo.fresh = (Return None, Demo.fresh).
Proof.
  apply (getPeerByUsername_absent Demo.fresh "alice" 5).
  intros k row Hk. vm_compute in Hk. discriminate Hk.
Defined.

(** X17 on the storage with [alice], whose cache is disabled. *)
Lemma getPeerByUsername_effects_witness :
  (Sqlite.getPeerByUsername "alice" 2000 Demo.with_alice).2 = Demo.with_alice.
Proof.
  apply (proj1 (proj2 (proj2
           (getPeerByUsername_effects Demo.with_alice "alice" 2000)))).
  reflexivity.
Defined.

(** X18 on a row stored with a capital letter. *)
Lemma getPeerByUsername_case_witness :
  let row := {| SqliteEntity.id := 1; SqliteEntity.hash := [];
                SqliteEntity.type := "user"; SqliteEntity.username := Some "Bob";
                SqliteEntity.phone := None; SqliteEntity.updated := 0;
                SqliteEntity.full := [] |} in
  Sqlite.getEntByUser (Sqlite.toLowerCase "Bob")
    (Sqlite._db (Sqlite.save (Sqlite.push (Sqlite.upsertEnt row) Demo.fresh)))
  <> Some row.
Proof.
  intros row.
  apply (proj2 (getPeerByUsername_case
                  (Sqlite.save (Sqlite.push (Sqlite.upsertEnt row) Demo.fresh))
                  "Bob" 0 row "Bob")).
  - reflexivity.
  - vm_compute. discriminate.
Defined.

(** ** Entities: [upsertEnt], [updatePeers] and the lookups by id and phone *)

Section Entities.

Import Sqlite SqlitePeers.
Context `{CoreCache}.

Implicit Types (st : SqliteStorage) (s : Storage) (db : Database).

Lemma upsert_lookup row db k r :
  entities (run (upsertEnt row) db) !! k = Some r ->
  (k = SqliteEntity.id row /\ r = row) \/
  (k <> SqliteEntity.id row /\ entities db !! k = Some r /\ ~ same_phone row r).
Proof.
  cbn. destruct (decide (k = SqliteEntity.id row)) as [->|Hne].
  - rewrite lookup_insert_eq. intros [= <-]. by left.
  - rewrite lookup_insert_ne by done.
    intros [Hk Hp]%map_lookup_filter_Some. right. by repeat split.
Qed.

Lemma run_unique_phones w db : unique_phones db -> unique_phones (run w db).
Proof.
  intros Hu. destruct w; try exact Hu.
  intros k k' r r' ph Hk Hk' Hp Hp'.
  apply upsert_lookup in Hk as [[-> ->]|(Hne & Hk & Hnp)];
    apply upsert_lookup in Hk' as [[-> ->]|(Hne' & Hk' & Hnp')].
  - reflexivity.
  - exfalso. apply Hnp'. unfold same_phone. by rewrite Hp.
  - exfalso. apply Hnp. unfold same_phone. by rewrite Hp'.
  - by apply (Hu k k' r r' ph).
Qed.

Lemma _runMany_unique_phones ws db : unique_phones db -> unique_phones (_runMany ws db).
Proof.
  revert db. induction ws as [|w ws IH]; intros db Hu; [exact Hu|].
  apply IH. by apply run_unique_phones.
Qed.

Lemma first_row_some rows r : In r rows -> is_Some (first_row rows).
Proof.
  intros Hin. destruct (first_row rows) eqn:E; [eauto|].
  apply first_row_None in E. by subst.
Qed.

(** The query by phone finds the row when it is the only one of its
    phone. *)
Lemma getEntByPhone_only ph db k row :
  entities db !! k = Some row ->
  SqliteEntity.phone row = Some ph ->
  (forall k' r', entities db !! k' = Some r' -> SqliteEntity.phone r' = Some ph ->
                 r' = row) ->
  getEntByPhone ph db = Some row.
Proof.
  intros Hk Hp Honly. unfold getEntByPhone.
  set (l := List.filter _ _).
  assert (In row l) as Hin.
  { apply filter_In. split; [|by apply bool_decide_eq_true].
    apply in_map_iff. exists (k, row). split; [done|].
    apply list_elem_of_In. by apply elem_of_map_to_list. }
  destruct (first_row_some l row Hin) as [r Hr]. rewrite Hr. f_equal.
  apply first_row_In in Hr. apply filter_In in Hr as [Hr Hph].
  apply bool_decide_eq_true in Hph.
  apply in_map_iff in Hr as ([k' r'] & <- & Hr).
  apply list_elem_of_In, elem_of_map_to_list in Hr. by apply (Honly k').
Qed.

(** X19. The statements of the storage keep phones unique: when no two
    rows of the database carry the same phone, none do after a [save()],
    whatever was pending; and then the query by phone finds every stored
    row that has a phone. *)
Theorem phones_stay_unique (st : SqliteStorage) (k : Z) (row : SqliteEntity.t)
        (ph : string) :
  unique_phones (_db st) ->
  unique_phones (_db (save st)) /\
  (entities (_db st) !! k = Some row -> SqliteEntity.phone row = Some ph ->
   getEntByPhone ph (_db st) = Some row).
Proof.
  intros Hu. split.
  - rewrite db_save. by apply _runMany_unique_phones.
  - intros Hk Hp. apply (getEntByPhone_only ph _ k row Hk Hp).
    intros k' r' Hk' Hp'.
    assert (k = k') as -> by (by apply (Hu k k' row r' ph)).
    congruence.
Qed.

Lemma cache_get_db id st :
  _db (cache_get id st).2 = _db st /\ _pending (cache_get id st).2 = _pending st.
Proof. unfold cache_get. by destruct (_cache st). Qed.

Lemma cache_get_disabled id st : _cache st = None -> cache_get id st = (None, st).
Proof. unfold cache_get. by intros ->. Qed.

Lemma cache_row_db id row st p st' :
  cache_row id row st = Return (p, st') ->
  _db st' = _db st /\ _pending st' = _pending st.
Proof.
  unfold cache_row. destruct (getInputPeer _); [|discriminate].
  destruct (_readFullPeer _); [|discriminate].
  intros [= <- <-]. unfold _addToCache. by destruct (_cache st).
Qed.

Lemma upsert_peer_base p now st pending :
  _db (base (upsert_peer p now st pending).2) = _db st /\
  _pending (base (upsert_peer p now st pending).2)
    = _pending st ++ [upsertEnt (row_of p now)].
Proof.
  unfold upsert_peer. destruct (getInputPeer _); cbn; [|done].
  unfold _addToCache. cbn. by destruct (_cache st).
Qed.

(** One peer either leaves the queue alone or adds its [upsertEnt]. *)
Lemma updatePeer_base p now s :
  _db (base (updatePeer p now s).2) = _db (base s) /\
  _pending (base (updatePeer p now s).2)
    = _pending (base s) ++ (if known p s then [] else [upsertEnt (row_of p now)]).
Proof.
  unfold updatePeer, known.
  destruct (cache_get_db (PeerInfo.id (info p)) (base s)) as [Hdb Hpend].
  destruct ((cache_get (PeerInfo.id (info p)) (base s)).1) as [cached|];
    [destruct (same_hash _ _)|].
  - cbn. by rewrite Hdb, Hpend, app_nil_r.
  - destruct (upsert_peer_base p now (cache_get (PeerInfo.id (info p)) (base s)).2
                (_pendingUnimportant s)) as [-> ->]. by rewrite Hdb, Hpend.
  - destruct (upsert_peer_base p now (cache_get (PeerInfo.id (info p)) (base s)).2
                (_pendingUnimportant s)) as [-> ->]. by rewrite Hdb, Hpend.
Qed.

Lemma updatePeers_base peers s :
  _db (base (updatePeers peers s).2) = _db (base s) /\
  exists rows, _pending (base (updatePeers peers s).2)
               = _pending (base s) ++ map upsertEnt rows.
Proof.
  revert s. induction peers as [|[p now] peers IH]; intros s; cbn.
  - split; [done|]. exists []. by rewrite app_nil_r.
  - destruct (updatePeer_base p now s) as [Hdb Hpend].
    destruct (updatePeer p now s) as [[[]|msg] s'] eqn:E; cbn in Hdb, Hpend.
    + destruct (IH s') as [Hdb' [rows Hrows]]. split; [congruence|].
      rewrite Hrows, Hpend. destruct (known p s).
      * exists rows. by rewrite app_nil_r.
      * exists (row_of p now :: rows). by rewrite <- app_assoc.
    + cbn. split; [done|]. rewrite Hpend. destruct (known p s).
      * exists []. reflexivity.
      * exists [row_of p now]. reflexivity.
Qed.

Lemma _runMany_upserts rows db :
  kv (_runMany (map upsertEnt rows) db) = kv db /\
  auth_keys (_runMany (map upsertEnt rows) db) = auth_keys db /\
  pts (_runMany (map upsertEnt rows) db) = pts db.
Proof.
  revert db. induction rows as [|r rows IH]; intros db; [done|].
  cbn [map]. change (_runMany (?w :: ?ws) db) with (_runMany ws (run w db)).
  destruct (IH (run (upsertEnt r) db)) as (-> & -> & ->). done.
Qed.

(** X20. [updatePeers] is buffered and minds its own table: it never
    changes the database itself, and after the next [save()] the
    authorisation keys, the channel counters and the updates state are what
    they would be without the call, whatever the peers and also when a peer
    makes the call throw. *)
Theorem updatePeers_frame (s : Storage) (peers : list (Peer * Z)) (dc cid : Z) :
  _db (base (updatePeers peers s).2) = _db (base s) /\
  getAuthKeyFor dc (save (base (updatePeers peers s).2))
    = getAuthKeyFor dc (save (base s)) /\
  getChannelPts cid (save (base (updatePeers peers s).2))
    = getChannelPts cid (save (base s)) /\
  getUpdatesState (save (base (updatePeers peers s).2))
    = getUpdatesState (save (base s)).
Proof.
  destruct (updatePeers_base peers s) as [Hdb [rows Hrows]].
  split; [exact Hdb|].
  assert (flushed (base (updatePeers peers s).2)
          = _runMany (map upsertEnt rows) (flushed (base s))) as Hf.
  { unfold flushed. by rewrite Hrows, Hdb, _runMany_app. }
  destruct (_runMany_upserts rows (flushed (base s))) as (Hkv & Ha & Hp).
  unfold getAuthKeyFor, getAuth, getChannelPts, getPts.
  rewrite !db_save, Hf, Ha, Hp. repeat split.
  apply getUpdatesState_kv. by rewrite !db_save, Hf, Hkv.
Qed.

Lemma updatePeers_one p now s ip :
  known p s = false ->
  getInputPeer (inr (info p)) = Return ip ->
  (updatePeers [(p, now)] s).1 = Return tt /\
  flushed (base (updatePeers [(p, now)] s).2)
    = run (upsertEnt (row_of p now)) (flushed (base s)).
Proof.
  intros Hk Hip. cbn [updatePeers].
  destruct (updatePeer_base p now s) as [Hdb Hpend]. rewrite Hk in Hpend.
  assert ((updatePeer p now s).1 = Return tt) as Hret.
  { unfold updatePeer, known in *.
    destruct ((cache_get _ _).1); [rewrite Hk|]; unfold upsert_peer; by rewrite Hip. }
  destruct (updatePeer p now s) as [[[]|msg] s'] eqn:E; cbn in *; [|discriminate].
  split; [done|]. unfold flushed. by rewrite Hpend, Hdb, _runMany_snoc.
Qed.

Lemma cache_row_stored id p now st ip obj :
  getInputPeer (inr (info p)) = Return ip ->
  BinaryReader_object (BinaryWriter_serializeObject (full p)) = Some obj ->
  exists st', cache_row id (row_of p now) st = Return (ip, st').
Proof.
  intros Hip Hobj. unfold cache_row.
  rewrite (getInputPeer_same (info p) (row_of p now)) by reflexivity.
  rewrite Hip. unfold _readFullPeer. cbn [row_of SqliteEntity.full].
  rewrite Hobj. eauto.
Qed.

(** X21. A peer written by [updatePeers] is found by its phone after the
    save: for a peer that is not taken for a known one (not cached with the
    same access hash), of a valid type and with an entity the reader decodes
    from what the writer wrote, [getPeerByPhone] of its phone returns the
    input peer of the peer, whatever else the table held, and however old
    the update is. *)
Theorem updatePeers_getPeerByPhone (s : Storage) (p : Peer) (now : Z) (ph : string)
        (ip : Tl.TypeInputPeer) :
  known p s = false ->
  phone p = Some ph ->
  getInputPeer (inr (info p)) = Return ip ->
  is_Some (BinaryReader_object (BinaryWriter_serializeObject (full p))) ->
  (updatePeers [(p, now)] s).1 = Return tt /\
  (getPeerByPhone ph (save (base (updatePeers [(p, now)] s).2))).1 = Return (Some ip).
Proof.
  intros Hk Hph Hip [obj Hobj].
  destruct (updatePeers_one p now s ip Hk Hip) as [Hret Hf].
  split; [exact Hret|].
  unfold getPeerByPhone. rewrite db_save, Hf.
  rewrite (getEntByPhone_only ph _ (PeerInfo.id (info p)) (row_of p now)).
  - destruct (cache_row_stored (SqliteEntity.id (row_of p now)) p now
                (save (base (updatePeers [(p, now)] s).2)) ip obj Hip Hobj)
      as [st' ->]. reflexivity.
  - cbn. apply lookup_insert_eq.
  - exact Hph.
  - intros k' r' Hk' Hp'.
    apply upsert_lookup in Hk' as [[_ ->]|(_ & _ & Hnp)]; [reflexivity|].
    exfalso. apply Hnp. unfold same_phone. cbn. by rewrite Hph.
Qed.

(** X22. With the cache disabled, a peer written by [updatePeers] is found
    by its id after the save: [getPeerById] returns its input peer, while
    [getFullPeerById] returns the serialised bytes of its entity as they
    stand in the row, not the entity. *)
Theorem updatePeers_getPeerById (s : Storage) (p : Peer) (now : Z)
        (ip : Tl.TypeInputPeer) :
  _cache (base s) = None ->
  getInputPeer (inr (info p)) = Return ip ->
  is_Some (BinaryReader_object (BinaryWriter_serializeObject (full p))) ->
  let st := save (base (updatePeers [(p, now)] s).2) in
  (getPeerById (PeerInfo.id (info p)) st).1 = Return (Some ip) /\
  (getFullPeerById (PeerInfo.id (info p)) st).1
    = Return (Some (inr (BinaryWriter_serializeObject (full p)))).
Proof.
  intros Hc Hip [obj Hobj] st.
  assert (known p s = false) as Hk.
  { unfold known. by rewrite cache_get_disabled. }
  destruct (updatePeers_one p now s ip Hk Hip) as [_ Hf].
  assert (getEntById (PeerInfo.id (info p)) (_db st) = Some (row_of p now)) as Hrow.
  { subst st. rewrite db_save, Hf. cbn. apply lookup_insert_eq. }
  assert (_cache st = None) as Hcst.
  { subst st. cbn [updatePeers]. unfold updatePeer.
    rewrite cache_get_disabled by done. cbn [fst snd].
    unfold upsert_peer. rewrite Hip. cbn [snd base]. unfold _addToCache. cbn.
    rewrite Hc. unfold save. cbn. by destruct (_pending (base s)). }
  unfold getPeerById, getFullPeerById.
  rewrite cache_get_disabled by done. cbn [fst snd]. rewrite Hrow.
  destruct (cache_row_stored (PeerInfo.id (info p)) p now st ip obj Hip Hobj)
    as [st' ->].
  split; reflexivity.
Qed.

(** X23. A peer that is cached with the same access hash is only noted for
    later: [updatePeers] queues no statement for it, so that the next
    [save()] leaves the database as it would without the call, and keeps
    its update under its id in [_pendingUnimportant].  A peer cached as a
    chat, which has no access hash, is never taken for a known one. *)
Theorem updatePeers_known (s : Storage) (p : Peer) (now : Z) :
  (known p s = true ->
   (updatePeers [(p, now)] s).1 = Return tt /\
   _pending (base (updatePeers [(p, now)] s).2) = _pending (base s) /\
   _db (save (base (updatePeers [(p, now)] s).2)) = _db (save (base s)) /\
   u_updated <$> _pendingUnimportant (updatePeers [(p, now)] s).2
                 !! PeerInfo.id (info p) = Some now) /\
  ((forall item, (cache_get (PeerInfo.id (info p)) (base s)).1 = Some item ->
                 exists chatId, peer item = Tl.inputPeerChat chatId) ->
   known p s = false).
Proof.
  split.
  - intros Hk. cbn [updatePeers].
    destruct (updatePeer_base p now s) as [Hdb Hpend]. rewrite Hk, app_nil_r in Hpend.
    assert ((updatePeer p now s).1 = Return tt /\
            u_updated <$> _pendingUnimportant (updatePeer p now s).2
                          !! PeerInfo.id (info p) = Some now) as [Hret Hu].
    { unfold updatePeer, known in *.
      destruct ((cache_get _ _).1); [|discriminate]. rewrite Hk.
      cbn. by rewrite lookup_insert_eq. }
    destruct (updatePeer p now s) as [[[]|msg] s'] eqn:E; cbn in *; [|discriminate].
    repeat split; try done.
    rewrite !db_save. unfold flushed. by rewrite Hpend, Hdb.
  - intros Hchat. unfold known.
    destruct ((cache_get _ _).1) as [item|] eqn:E; [|reflexivity].
    destruct (Hchat item eq_refl) as [c ->]. reflexivity.
Qed.

(** X24. The three lookups by id and by phone never write to the database
    nor to the pending queue; and since [reset()] leaves the cache alone, a
    peer the cache holds is still returned by [getPeerById] after a
    [reset()], although its row is gone. *)
Theorem lookups_read_only (st : SqliteStorage) (id : Z) (ph : string) (item : CacheItem) :
  (_db (getPeerById id st).2 = _db st /\ _pending (getPeerById id st).2 = _pending st) /\
  (_db (getPeerByPhone ph st).2 = _db st /\
   _pending (getPeerByPhone ph st).2 = _pending st) /\
  (_db (getFullPeerById id st).2 = _db st /\
   _pending (getFullPeerById id st).2 = _pending st) /\
  ((cache_get id st).1 = Some item ->
   (getPeerById id (reset st)).1 = Return (Some (peer item)) /\
   getEntById id (_db (reset st)) = None).
Proof.
  destruct (cache_get_db id st) as [Hdb Hpend].
  assert (forall st0 i row,
            match cache_row i row st0 with
            | Return r => _db r.2 = _db st0 /\ _pending r.2 = _pending st0
            | Throw _ => True
            end) as Hrow.
  { intros st0 i row. destruct (cache_row i row st0) as [[p' st']|] eqn:E; [|done].
    by apply cache_row_db in E. }
  repeat match goal with |- _ /\ _ => split end.
  - unfold getPeerById. destruct ((cache_get id st).1); [done|].
    destruct (getEntById _ _) as [row|]; [|done].
    specialize (Hrow (cache_get id st).2 id row).
    destruct (cache_row _ _ _); [|done]. cbn. destruct Hrow as [-> _]. done.
  - unfold getPeerById. destruct ((cache_get id st).1); [done|].
    destruct (getEntById _ _) as [row|]; [|done].
    specialize (Hrow (cache_get id st).2 id row).
    destruct (cache_row _ _ _); [|done]. cbn. destruct Hrow as [_ ->]. done.
  - unfold getPeerByPhone. destruct (getEntByPhone _ _) as [row|]; [|done].
    specialize (Hrow st (SqliteEntity.id row) row).
    destruct (cache_row _ _ _); [|done]. cbn. by destruct Hrow as [-> _].
  - unfold getPeerByPhone. destruct (getEntByPhone _ _) as [row|]; [|done].
    specialize (Hrow st (SqliteEntity.id row) row).
    destruct (cache_row _ _ _); [|done]. cbn. by destruct Hrow as [_ ->].
  - unfold getFullPeerById. destruct ((cache_get id st).1); [done|].
    destruct (getEntById _ _) as [row|]; [|done].
    specialize (Hrow (cache_get id st).2 id row).
    destruct (cache_row _ _ _); [|done]. cbn. destruct Hrow as [-> _]. done.
  - unfold getFullPeerById. destruct ((cache_get id st).1); [done|].
    destruct (getEntById _ _) as [row|]; [|done].
    specialize (Hrow (cache_get id st).2 id row).
    destruct (cache_row _ _ _); [|done]. cbn. destruct Hrow as [_ ->]. done.
  - intros Hitem. split; [|apply lookup_empty]. unfold getPeerById.
    assert ((cache_get id (reset st)).1 = (cache_get id st).1) as ->.
    { unfold cache_get, reset, with_db. cbn. by destruct (_cache st). }
    by rewrite Hitem.
Qed.

End Entities.

Section CacheFirst.

Import Sqlite SqlitePeers.
Context `{CoreCache}.

(** X25. What [updatePeers] writes is in the cache at once: with the cache
    enabled, and a cache that returns under a key what was last set under
    it, [getPeerById] returns the input peer of a peer right after
    [updatePeers], before any [save()], while its row is not yet in the
    table. *)
Theorem updatePeers_cached_at_once (s : Storage) (p : Peer) (now : Z)
        (ip : Tl.TypeInputPeer) (cache : LruMap CacheItem) :
  (forall k (v : CacheItem) m, (LruMap_get k (LruMap_set k v m)).1 = Some v) ->
  _cache (base s) = Some cache ->
  known p s = false ->
  getInputPeer (inr (info p)) = Return ip ->
  (getPeerById (PeerInfo.id (info p)) (base (updatePeers [(p, now)] s).2)).1
    = Return (Some ip) /\
  _db (base (updatePeers [(p, now)] s).2) = _db (base s).
Proof.
  intros Hlaw Hc Hk Hip. split; [|apply updatePeers_base].
  cbn [updatePeers].
  assert (exists st0, (updatePeer p now s)
            = (Return tt,
               {| base := _addToCache (PeerInfo.id (info p))
                            {| Sqlite.peer := ip; Sqlite.full := SqlitePeers.full p |} st0;
                  _pendingUnimportant := _pendingUnimportant s |})
            /\ is_Some (_cache st0)) as (st0 & -> & [c0 Hc0]).
  { unfold updatePeer, known in *.
    exists (push (upsertEnt (row_of p now))
                 (cache_get (PeerInfo.id (info p)) (base s)).2).
    split.
    - destruct ((cache_get _ _).1); [rewrite Hk|]; unfold upsert_peer; by rewrite Hip.
    - unfold cache_get. rewrite Hc. cbn. eauto. }
  cbn [fst snd base]. unfold getPeerById, cache_get, _addToCache.
  rewrite Hc0. cbn [_cache fst snd]. by rewrite Hlaw.
Qed.

End CacheFirst.

(** X19 on the storage that holds the row of [bob]. *)
Lemma phones_stay_unique_witness :
  let st := SqlitePeers.base (SqlitePeers.updatePeers [(DemoPeers.bob, 1000)] DemoPeers.plain).2 in
  SqlitePeers.getEntByPhone "123" (Sqlite._db (Sqlite.save st))
  = Some (SqlitePeers.row_of DemoPeers.bob 1000).
Proof.
  intros st.
  assert (SqlitePeers.unique_phones (Sqlite._db st)) as Hfresh.
  { intros k k' r r' ph Hk. vm_compute in Hk. discriminate Hk. }
  apply (proj2 (phones_stay_unique (Sqlite.save st) 7
                  (SqlitePeers.row_of DemoPeers.bob 1000) "123"
                  (proj1 (phones_stay_unique st 0
                            (SqlitePeers.row_of DemoPeers.bob 1000) "" Hfresh)))).
  - vm_compute. reflexivity.
  - reflexivity.
Defined.

(** X21 on [bob] and a storage with an empty cache. *)
Lemma updatePeers_getPeerByPhone_witness :
  (SqlitePeers.getPeerByPhone "123"
     (Sqlite.save (SqlitePeers.base
        (SqlitePeers.updatePeers [(DemoPeers.bob, 1000)] DemoPeers.cached).2))).1
  = Return (Some (Tl.inputPeerUser 7 99)).
Proof.
  refine (proj2 (updatePeers_getPeerByPhone DemoPeers.cached DemoPeers.bob 1000 "123"
                   (Tl.inputPeerUser 7 99) _ _ _ _)).
  - vm_compute. reflexivity.
  - reflexivity.
  - vm_compute. reflexivity.
  - exists [Byte.x05]. reflexivity.
Defined.

(** X22 on [bob] and a storage without cache. *)
Lemma updatePeers_getPeerById_witness :
  let st := Sqlite.save (SqlitePeers.base
              (SqlitePeers.updatePeers [(DemoPeers.bob, 1000)] DemoPeers.plain).2) in
  (SqlitePeers.getPeerById 7 st).1 = Return (Some (Tl.inputPeerUser 7 99)) /\
  (SqlitePeers.getFullPeerById 7 st).1 = Return (Some (inr [Byte.x05])).
Proof.
  refine (updatePeers_getPeerById DemoPeers.plain DemoPeers.bob 1000
            (Tl.inputPeerUser 7 99) _ _ _).
  - reflexivity.
  - vm_compute. reflexivity.
  - exists [Byte.x05]. reflexivity.
Defined.

(** X23 on [bob], updated a second time while cached. *)
Lemma updatePeers_known_witness :
  let s := (SqlitePeers.updatePeers [(DemoPeers.bob, 1000)] DemoPeers.cached).2 in
  Sqlite._pending (SqlitePeers.base (SqlitePeers.updatePeers [(DemoPeers.bob, 2000)] s).2)
  = Sqlite._pending (SqlitePeers.base s).
Proof.
  intros s.
  refine (proj1 (proj2 (proj1 (updatePeers_known s DemoPeers.bob 2000) _))).
  vm_compute. reflexivity.
Defined.

(** X24 on [bob], cached and then reset. *)
Lemma lookups_read_only_witness :
  let st := SqlitePeers.base
              (SqlitePeers.updatePeers [(DemoPeers.bob, 1000)] DemoPeers.cached).2 in
  (SqlitePeers.getPeerById 7 (Sqlite.reset st)).1 = Return (Some (Tl.inputPeerUser 7 99)).
Proof.
  intros st.
  refine (proj1 (proj2 (proj2 (proj2
            (lookups_read_only st 7 ""
               {| Sqlite.peer := Tl.inputPeerUser 7 99; Sqlite.full := [Byte.x05] |})))
            _)).
  vm_compute. reflexivity.
Defined.

(** X25 on [bob] and a storage with an empty cache. *)
Lemma updatePeers_cached_at_once_witness :
  (SqlitePeers.getPeerById 7
     (SqlitePeers.base
        (SqlitePeers.updatePeers [(DemoPeers.bob, 1000)] DemoPeers.cached).2)).1
  = Return (Some (Tl.inputPeerUser 7 99)).
Proof.
  refine (proj1 (updatePeers_cached_at_once DemoPeers.cached DemoPeers.bob 1000
                   (Tl.inputPeerUser 7 99) [] _ _ _ _)).
  - intros k v m. cbn. by rewrite bool_decide_eq_true_2.
  - reflexivity.
  - vm_compute. reflexivity.
  - vm_compute. reflexivity.
Defined.
